(** * Travel planner: response reconciliation and plan synthesis

    A shallow embedding of the [/api/generate-plans] handler of
    [travel_agent/main.ts]: the event loop that accumulates the agent's
    answer, the brace scan that cuts a JSON candidate out of it, and the
    try/catch cascade that turns the text into the [planData] object sent
    back to the client.

    Conventions.
    - A JavaScript string is the list of its UTF-16 code units.
    - A JavaScript number that holds an integer is modelled by that
      integer ([Z]), read as the double nearest to it; products are rounded
      to 53 significant bits and printed in the shortest form, as the
      engine does. [NaN] is the one value that is not an integer; an
      integer of magnitude [2 ^ 1024] or more stands for an infinity.
    - [throw] and [try]/[catch] are modelled by the [completion] type.
    - [console.log] output is not modelled. *)

From Stdlib Require Import List ZArith NArith Bool Lia String Ascii.
Import ListNotations.

Local Open Scope Z_scope.

Set Warnings "-register-all".

(* ================================================================== *)
(** ** JavaScript strings and numbers *)
(* ================================================================== *)

Module JS.

Definition codeunit := N.
Definition jsstring := list codeunit.

(** A string literal of the source, written with ASCII characters. *)
Definition lit (s : string) : jsstring :=
  map N_of_ascii (list_ascii_of_string s).

(** Same, where a backquote in [s] stands for the double quote (code unit
    34) of the JavaScript text. *)
Definition litq (s : string) : jsstring :=
  map (fun c => if N.eqb c 96 then 34%N else c) (lit s).

Definition lbrace : codeunit := 123%N.
Definition rbrace : codeunit := 125%N.
Definition dquote : codeunit := 34%N.
Definition squote : codeunit := 39%N.
Definition newline : codeunit := 10%N.

Fixpoint eqb (a b : jsstring) : bool :=
  match a, b with
  | [], [] => true
  | x :: a', y :: b' => N.eqb x y && eqb a' b'
  | _, _ => false
  end.

(** [s.length] *)
Definition length (s : jsstring) : Z := Z.of_nat (List.length s).

(** [s.indexOf(c)] for a one-unit string [c]; [-1] when absent. *)
Fixpoint indexOfFrom (c : codeunit) (s : jsstring) (i : Z) : Z :=
  match s with
  | [] => -1
  | x :: s' => if N.eqb x c then i else indexOfFrom c s' (i + 1)
  end.

Definition indexOf (c : codeunit) (s : jsstring) : Z := indexOfFrom c s 0.

(** [s.substring(a, b)]: both bounds are clamped to [0..length] and
    swapped when out of order. *)
Definition clamp (s : jsstring) (i : Z) : Z := Z.max 0 (Z.min i (length s)).

Definition substring (s : jsstring) (a b : Z) : jsstring :=
  let a' := clamp s a in
  let b' := clamp s b in
  let lo := Z.min a' b' in
  let hi := Z.max a' b' in
  firstn (Z.to_nat (hi - lo)) (skipn (Z.to_nat lo) s).

Fixpoint startsWith (p s : jsstring) : bool :=
  match p, s with
  | [], _ => true
  | x :: p', y :: s' => N.eqb x y && startsWith p' s'
  | _ :: _, [] => false
  end.

(** [s.includes(p)] *)
Fixpoint includes (s p : jsstring) : bool :=
  startsWith p s ||
  match s with
  | [] => false
  | _ :: s' => includes s' p
  end.

(** White space and line terminators: the set matched by [\s] in a
    regular expression and stripped by [trim] and [parseInt]. *)
Definition isWhiteSpace (c : codeunit) : bool :=
  ((9 <=? c) && (c <=? 13) || (c =? 32) || (c =? 160) || (c =? 5760)
   || (8192 <=? c) && (c <=? 8202) || (c =? 8232) || (c =? 8233)
   || (c =? 8239) || (c =? 8287) || (c =? 12288) || (c =? 65279))%N.

Fixpoint trimStart (s : jsstring) : jsstring :=
  match s with
  | c :: s' => if isWhiteSpace c then trimStart s' else s
  | [] => []
  end.

Definition trimEnd (s : jsstring) : jsstring := rev (trimStart (rev s)).

(** [s.trim()] *)
Definition trim (s : jsstring) : jsstring := trimEnd (trimStart s).

(** [s.toLowerCase()], on the ASCII letters. The handler applies it to the
    names of the mode table only, which are ASCII. *)
Definition lowerUnit (c : codeunit) : codeunit :=
  if ((65 <=? c) && (c <=? 90))%N then (c + 32)%N else c.

Definition upperUnit (c : codeunit) : codeunit :=
  if ((97 <=? c) && (c <=? 122))%N then (c - 32)%N else c.

Definition toLowerCase (s : jsstring) : jsstring := map lowerUnit s.

(** [a.join(sep)] *)
Fixpoint join (sep : jsstring) (a : list jsstring) : jsstring :=
  match a with
  | [] => []
  | [x] => x
  | x :: a' => x ++ sep ++ join sep a'
  end.

(** [s.replace(c, '')] for a one-unit pattern [c]: the first occurrence is
    removed. *)
Fixpoint removeFirst (c : codeunit) (s : jsstring) : jsstring :=
  match s with
  | [] => []
  | x :: s' => if N.eqb x c then s' else x :: removeFirst c s'
  end.

(** [s.split(c)] for a one-unit separator [c]. *)
Fixpoint split (c : codeunit) (s : jsstring) : list jsstring :=
  match s with
  | [] => [[]]
  | x :: s' =>
      if N.eqb x c then [] :: split c s'
      else match split c s' with
           | piece :: pieces => (x :: piece) :: pieces
           | [] => [[x]]
           end
  end.

(** Numbers: [Int z] is the double nearest to the integer [z], which is
    [z] itself up to [2 ^ 53] in magnitude. *)
Inductive number :=
| Int (z : Z)
| NaN.

Definition MAX_SAFE_INTEGER : Z := 2 ^ 53 - 1.

Definition isSafe (z : Z) : Prop := - MAX_SAFE_INTEGER <= z <= MAX_SAFE_INTEGER.

(** The magnitude that stands for [Infinity]: one more binary digit than
    the largest double has. *)
Definition infinity : Z := 2 ^ 1024.

Definition isInfinite (d : Z) : bool := infinity <=? Z.abs d.

(** The double nearest to an integer: every integer up to [2 ^ 53] in
    magnitude is a double; a larger one keeps its 53 leading binary digits,
    rounded to nearest with ties to the even neighbour, and overflows to an
    infinity. *)
Definition toDouble (z : Z) : Z :=
  let a := Z.abs z in
  if a <=? 2 ^ 53 then z
  else
    let shift := Z.log2 a - 52 in
    let q := Z.shiftr a shift in
    let r := a - Z.shiftl q shift in
    let half := Z.shiftl 1 (shift - 1) in
    let q' := if (half <? r) || ((r =? half) && Z.odd q) then q + 1 else q in
    let d := Z.shiftl q' shift in
    Z.sgn z * (if infinity <=? d then infinity else d).

(** [a * b]: the exact product of the two doubles, rounded; an infinity
    times zero is [NaN]. *)
Definition mul (a b : number) : number :=
  match a, b with
  | Int x, Int y =>
      let dx := toDouble x in
      let dy := toDouble y in
      if isInfinite dx && (dy =? 0) || isInfinite dy && (dx =? 0) then NaN
      else Int (toDouble (dx * dy))
  | _, _ => NaN
  end.

(** Decimal digits of a natural number, most significant first. *)
Fixpoint digitsAux (fuel : nat) (n : N) (acc : jsstring) : jsstring :=
  match fuel with
  | O => acc
  | S fuel' =>
      let acc' := (48 + n mod 10)%N :: acc in
      if (n / 10 =? 0)%N then acc' else digitsAux fuel' (n / 10)%N acc'
  end.

Definition digits (n : N) : jsstring := digitsAux (S (N.size_nat n)) n [].

(** The integer with the fewest significant digits that rounds to the
    double [d], where [d] has [n] decimal digits: for [k = 1, 2, ...] the
    two multiples of [10 ^ (n - k)] around [d] are tried, and when both
    round to [d] the nearer one is taken, the one with the even last digit
    on a tie. *)
Fixpoint shortest (d : Z) (n k fuel : nat) : Z :=
  match fuel with
  | O => d
  | S fuel' =>
      let p := 10 ^ Z.of_nat (n - k) in
      let lo := d / p * p in
      let hi := lo + p in
      match toDouble lo =? d, toDouble hi =? d with
      | true, true =>
          if d - lo <? hi - d then lo
          else if hi - d <? d - lo then hi
          else if Z.even (d / p) then lo else hi
      | true, false => lo
      | false, true => hi
      | false, false => shortest d n (S k) fuel'
      end
  end.

Fixpoint dropZeros (s : jsstring) : jsstring :=
  match s with
  | c :: s' => if (c =? 48)%N then dropZeros s' else s
  | [] => []
  end.

(** Up to 21 digits are printed as they are; beyond, the significant
    digits are followed by the exponent. *)
Definition exponential (ds : jsstring) : jsstring :=
  let n := List.length ds in
  if (n <=? 21)%nat then ds
  else
    match rev (dropZeros (rev ds)) with
    | [] => ds
    | [d] => d :: lit "e+" ++ digits (N.of_nat (n - 1))
    | d :: more => d :: lit "." ++ more ++ lit "e+" ++ digits (N.of_nat (n - 1))
    end.

(** The text of a double that is a natural number. Up to [2 ^ 53] the
    neighbouring integers are doubles too, so that no shorter text rounds
    to [d] and its own digits are printed. *)
Definition doubleToString (d : Z) : jsstring :=
  if d <=? 2 ^ 53 then digits (Z.to_N d)
  else if isInfinite d then lit "Infinity"
  else
    let n := List.length (digits (Z.to_N d)) in
    exponential (digits (Z.to_N (shortest d n 1 n))).

(** [String(x)] and [`${x}`] for a number [x]. *)
Definition numberToString (x : number) : jsstring :=
  match x with
  | NaN => lit "NaN"
  | Int z =>
      let d := toDouble z in
      if d <? 0 then lit "-" ++ doubleToString (- d) else doubleToString d
  end.

(** Value of a digit in the given radix, if it is one. *)
Definition digitValue (radix : N) (c : codeunit) : option N :=
  let v := (if (48 <=? c) && (c <=? 57) then c - 48
            else if (97 <=? c) && (c <=? 122) then c - 87
            else if (65 <=? c) && (c <=? 90) then c - 55
            else 36)%N in
  if (v <? radix)%N then Some v else None.

(** The longest prefix of digits, accumulated; [None] when it is empty. *)
Fixpoint parseDigits (radix : N) (s : jsstring) (acc : option N) : option N :=
  match s with
  | [] => acc
  | c :: s' =>
      match digitValue radix c with
      | Some v =>
          parseDigits radix s'
            (Some (match acc with Some a => a * radix + v | None => v end)%N)
      | None => acc
      end
  end.

(** [parseInt(s)] with no radix argument: leading white space, a sign, an
    optional [0x] prefix, then the longest run of digits. *)
Definition parseInt (s : jsstring) : number :=
  let s1 := trimStart s in
  let '(sign, s2) :=
    match s1 with
    | c :: r => if (c =? 45)%N then (-1, r)
                else if (c =? 43)%N then (1, r) else (1, s1)
    | [] => (1, s1)
    end in
  let '(radix, s3) :=
    match s2 with
    | z :: x :: r =>
        if ((z =? 48) && ((x =? 120) || (x =? 88)))%N then (16%N, r) else (10%N, s2)
    | _ => (10%N, s2)
    end in
  match parseDigits radix s3 None with
  | Some n => Int (sign * Z.of_N n)
  | None => NaN
  end.

(** A decimal digit, and the value of a run of decimal digits read after
    the value [a]. *)
Definition isDecimal (c : codeunit) : Prop := (48 <= c <= 57)%N.

Definition digitStep (a : N) (c : codeunit) : N := (a * 10 + (c - 48))%N.

(** [String(x)] for a value that may be [undefined]. *)
Definition toStringOpt (x : option jsstring) : jsstring :=
  match x with
  | Some s => s
  | None => lit "undefined"
  end.

End JS.

Import JS.

(* ================================================================== *)
(** ** Completions: normal results and thrown errors *)
(* ================================================================== *)

Inductive ErrorKind := PlainError | SyntaxError | TypeError.

Record Error := mkError { errorKind : ErrorKind; message : jsstring }.

Inductive completion (A : Type) :=
| Normal (a : A)
| Throw (e : Error).

Arguments Normal {A} a.
Arguments Throw {A} e.

Definition bind {A B} (c : completion A) (k : A -> completion B) : completion B :=
  match c with
  | Normal a => k a
  | Throw e => Throw e
  end.

Definition fmap {A B} (f : A -> B) (c : completion A) : completion B :=
  bind c (fun a => Normal (f a)).

(** [try { body } catch (e) { handler }] *)
Definition tryCatch {A} (body : completion A) (handler : Error -> completion A)
  : completion A :=
  match body with
  | Normal a => Normal a
  | Throw e => handler e
  end.

(* ================================================================== *)
(** ** JSON values and [JSON.parse] *)
(* ================================================================== *)

Module Json.

(** A parsed JSON text. A number keeps its literal (its conversion to a
    double is not modelled); an object keeps its members in the order of
    their first occurrence, a repeated name taking its last value (that
    names which are array indices are enumerated first is not modelled). *)
Inductive JSON :=
| JNull
| JBool (b : bool)
| JNumber (literal : jsstring)
| JString (s : jsstring)
| JArray (items : list JSON)
| JObject (members : list (jsstring * JSON)).

(** Property read [v[key]] on a parsed value: the last member of that name
    wins, as when [JSON.parse] builds the object. *)
Fixpoint lookupMember (key : jsstring) (members : list (jsstring * JSON))
  : option JSON :=
  match members with
  | [] => None
  | (k, v) :: rest =>
      match lookupMember key rest with
      | Some v' => Some v'
      | None => if JS.eqb k key then Some v else None
      end
  end.

Definition get (key : jsstring) (v : JSON) : option JSON :=
  match v with
  | JObject members => lookupMember key members
  | _ => None
  end.

(** The member [key: v] read in front of the members [rest] that follow
    it in the text: a later member of the same name overwrites its value
    and leaves it in its place. *)
Definition addMember (key : jsstring) (v : JSON) (rest : list (jsstring * JSON))
  : list (jsstring * JSON) :=
  match lookupMember key rest with
  | Some v' => (key, v') :: filter (fun kv => negb (JS.eqb (fst kv) key)) rest
  | None => (key, v) :: rest
  end.

(** Outcome of a sub-parser: the value and the unread rest, or the unread
    rest at the point of failure. *)
Definition parsed (A : Type) : Type := (jsstring + A * jsstring)%type.

Definition isJsonSpace (c : codeunit) : bool :=
  ((c =? 32) || (c =? 9) || (c =? 10) || (c =? 13))%N.

Fixpoint skipWs (s : jsstring) : jsstring :=
  match s with
  | c :: s' => if isJsonSpace c then skipWs s' else s
  | [] => []
  end.

Definition isDigit (c : codeunit) : bool := ((48 <=? c) && (c <=? 57))%N.

Fixpoint spanDigits (s : jsstring) : jsstring * jsstring :=
  match s with
  | c :: s' =>
      if isDigit c then let '(ds, r) := spanDigits s' in (c :: ds, r)
      else ([], s)
  | [] => ([], [])
  end.

Definition hex4 (a b c d : codeunit) : option codeunit :=
  match digitValue 16 a, digitValue 16 b, digitValue 16 c, digitValue 16 d with
  | Some x, Some y, Some z, Some w => Some (((x * 16 + y) * 16 + z) * 16 + w)%N
  | _, _, _, _ => None
  end.

(** The character denoted by a one-letter escape. *)
Definition escapeUnit (e : codeunit) : option codeunit :=
  (if (e =? 34) || (e =? 92) || (e =? 47) then Some e
   else if e =? 98 then Some 8
   else if e =? 102 then Some 12
   else if e =? 110 then Some 10
   else if e =? 114 then Some 13
   else if e =? 116 then Some 9
   else None)%N.

(** Body of a string literal, after its opening quote; [acc] holds the
    units read so far, last first. *)
Fixpoint parseChars (s : jsstring) (acc : jsstring) : parsed jsstring :=
  match s with
  | [] => inl []
  | c :: r =>
      if (c =? 34)%N then inr (rev acc, r)
      else if (c =? 92)%N then
        match r with
        | [] => inl []
        | e :: r' =>
            if (e =? 117)%N then
              match r' with
              | a :: b :: c' :: d :: r'' =>
                  match hex4 a b c' d with
                  | Some u => parseChars r'' (u :: acc)
                  | None => inl r'
                  end
              | _ => inl r'
              end
            else
              match escapeUnit e with
              | Some u => parseChars r' (u :: acc)
              | None => inl r
              end
        end
      else if (c <? 32)%N then inl s
      else parseChars r (c :: acc)
  end.

(** A number literal: sign, integer part, fraction, exponent. *)
Definition parseNumber (s : jsstring) : parsed jsstring :=
  let '(sign, s1) :=
    match s with
    | c :: r => if (c =? 45)%N then ([c], r) else ([], s)
    | [] => ([], s)
    end in
  match s1 with
  | [] => inl []
  | c :: r =>
      if negb (isDigit c) then inl s1
      else
        let '(int, s2) :=
          if (c =? 48)%N then ([c], r)
          else let '(ds, r') := spanDigits r in (c :: ds, r') in
        let frac :=
          match s2 with
          | p :: r2 =>
              if (p =? 46)%N then
                match spanDigits r2 with
                | ([], _) => inl r2
                | (ds, r3) => inr (p :: ds, r3)
                end
              else inr ([], s2)
          | [] => inr ([], s2)
          end in
        match frac with
        | inl e => inl e
        | inr (fr, s3) =>
            match s3 with
            | e :: r3 =>
                if ((e =? 101) || (e =? 69))%N then
                  let '(esign, r4) :=
                    match r3 with
                    | g :: r3' =>
                        if ((g =? 43) || (g =? 45))%N then ([g], r3') else ([], r3)
                    | [] => ([], r3)
                    end in
                  match spanDigits r4 with
                  | ([], _) => inl r4
                  | (ds, r5) => inr (sign ++ int ++ fr ++ e :: esign ++ ds, r5)
                  end
                else inr (sign ++ int ++ fr, s3)
            | [] => inr (sign ++ int ++ fr, s3)
            end
        end
  end.

Definition keyword (word : jsstring) (v : JSON) (s : jsstring) : parsed JSON :=
  if startsWith word s then inr (v, skipn (List.length word) s) else inl s.

(** Values, object members and array elements. The fuel bounds the depth
    of the calls; two calls in a row read at least one unit, so twice the
    length of the text is enough. *)
Fixpoint parseValue (fuel : nat) (s : jsstring) : parsed JSON :=
  match fuel with
  | O => inl s
  | S fuel' =>
      match skipWs s with
      | [] => inl []
      | c :: r =>
          if (c =? 123)%N then
            match skipWs r with
            | [] => inl []
            | c1 :: r1 =>
                if (c1 =? 125)%N then inr (JObject [], r1)
                else match parseMembers fuel' (c1 :: r1) with
                     | inr (ms, r2) => inr (JObject ms, r2)
                     | inl e => inl e
                     end
            end
          else if (c =? 91)%N then
            match skipWs r with
            | [] => inl []
            | c1 :: r1 =>
                if (c1 =? 93)%N then inr (JArray [], r1)
                else match parseElements fuel' (c1 :: r1) with
                     | inr (vs, r2) => inr (JArray vs, r2)
                     | inl e => inl e
                     end
            end
          else if (c =? 34)%N then
            match parseChars r [] with
            | inr (str, r1) => inr (JString str, r1)
            | inl e => inl e
            end
          else if ((c =? 45) || isDigit c)%N then
            match parseNumber (c :: r) with
            | inr (lexeme, r1) => inr (JNumber lexeme, r1)
            | inl e => inl e
            end
          else if (c =? 116)%N then keyword (lit "true") (JBool true) (c :: r)
          else if (c =? 102)%N then keyword (lit "false") (JBool false) (c :: r)
          else if (c =? 110)%N then keyword (lit "null") JNull (c :: r)
          else inl (c :: r)
      end
  end

with parseMembers (fuel : nat) (s : jsstring) : parsed (list (jsstring * JSON)) :=
  match fuel with
  | O => inl s
  | S fuel' =>
      match skipWs s with
      | [] => inl []
      | c :: r =>
          if negb (c =? 34)%N then inl (c :: r)
          else
            match parseChars r [] with
            | inl e => inl e
            | inr (key, r1) =>
                match skipWs r1 with
                | [] => inl []
                | c2 :: r2 =>
                    if negb (c2 =? 58)%N then inl (c2 :: r2)
                    else
                      match parseValue fuel' r2 with
                      | inl e => inl e
                      | inr (v, r3) =>
                          match skipWs r3 with
                          | [] => inl []
                          | c4 :: r4 =>
                              if (c4 =? 44)%N then
                                match parseMembers fuel' r4 with
                                | inr (ms, r5) => inr (addMember key v ms, r5)
                                | inl e => inl e
                                end
                              else if (c4 =? 125)%N then inr ([(key, v)], r4)
                              else inl (c4 :: r4)
                          end
                      end
                end
            end
      end
  end

with parseElements (fuel : nat) (s : jsstring) : parsed (list JSON) :=
  match fuel with
  | O => inl s
  | S fuel' =>
      match parseValue fuel' s with
      | inl e => inl e
      | inr (v, r1) =>
          match skipWs r1 with
          | [] => inl []
          | c :: r2 =>
              if (c =? 44)%N then
                match parseElements fuel' r2 with
                | inr (vs, r3) => inr (v :: vs, r3)
                | inl e => inl e
                end
              else if (c =? 93)%N then inr ([v], r2)
              else inl (c :: r2)
          end
      end
  end.

(** The [SyntaxError] raised at the unread rest [rest] of [text]. The
    wording of the message is up to the engine; the model names the
    offending unit and its offset, or the end of the input. *)
Definition syntaxError (text rest : jsstring) : Error :=
  mkError SyntaxError
    match rest with
    | [] => lit "Unexpected end of JSON input"
    | c :: _ =>
        lit "Unexpected token " ++ [c] ++ lit " in JSON at position "
          ++ numberToString (Int (JS.length text - JS.length rest))
    end.

(** [JSON.parse(text)] *)
Definition parse (text : jsstring) : completion JSON :=
  match parseValue (S (2 * List.length text)) text with
  | inl rest => Throw (syntaxError text rest)
  | inr (v, rest) =>
      match skipWs rest with
      | [] => Normal v
      | rest' => Throw (syntaxError text rest')
      end
  end.

End Json.

Import Json.

(* ================================================================== *)
(** ** Regular expressions of the handler *)
(* ================================================================== *)

Module Regex.

(** The fragment of the pattern language that the four patterns of the
    handler use: single units (a literal unit or a class), greedy
    repetition of a class, sequence, and one capturing group. *)
Inductive regex :=
| Eps
| Unit (p : codeunit -> bool)
| Star (p : codeunit -> bool)
| Plus (p : codeunit -> bool)
| Seq (a b : regex)
| Group (a : regex).

(** Greedy [p*] followed by the continuation [k]: take as many units as
    possible, and give them back one at a time while [k] fails. *)
Fixpoint star {R} (p : codeunit -> bool) (s : jsstring)
  (k : jsstring -> option R) : option R :=
  match s with
  | c :: s' =>
      if p c then
        match star p s' k with
        | Some r => Some r
        | None => k s
        end
      else k s
  | [] => k []
  end.

(** Backtracking matcher in continuation-passing style; [cap] is the text
    last captured by the group. *)
Fixpoint run {R} (r : regex) (s : jsstring) (cap : option jsstring)
  (k : jsstring -> option jsstring -> option R) : option R :=
  match r with
  | Eps => k s cap
  | Unit p =>
      match s with
      | c :: s' => if p c then k s' cap else None
      | [] => None
      end
  | Star p => star p s (fun s' => k s' cap)
  | Plus p =>
      match s with
      | c :: s' => if p c then star p s' (fun s'' => k s'' cap) else None
      | [] => None
      end
  | Seq a b => run a s cap (fun s' cap' => run b s' cap' k)
  | Group a =>
      run a s cap
        (fun s' _ => k s' (Some (firstn (List.length s - List.length s') s)))
  end.

(** The array returned by [String.prototype.match] for a pattern without
    the [g] flag: the matched text and the text of group 1. *)
Record MatchResult := mkMatch { whole : jsstring; group1 : option jsstring }.

Definition matchAt (r : regex) (s : jsstring) : option MatchResult :=
  run r s None
    (fun s' cap =>
       Some (mkMatch (firstn (List.length s - List.length s') s) cap)).

(** [s.match(r)]: the match at the leftmost offset that has one; [None]
    stands for [null]. *)
Fixpoint search (r : regex) (s : jsstring) : option MatchResult :=
  match matchAt r s with
  | Some m => Some m
  | None =>
      match s with
      | [] => None
      | _ :: s' => search r s'
      end
  end.

(** A literal unit, and the same under the [i] flag. *)
Definition chr (c : codeunit) : regex := Unit (N.eqb c).

Definition chrI (c : codeunit) : regex :=
  Unit (fun x => N.eqb x (lowerUnit c) || N.eqb x (upperUnit c)).

Fixpoint seqOf (rs : list regex) : regex :=
  match rs with
  | [] => Eps
  | r :: rs' => Seq r (seqOf rs')
  end.

Definition word (s : jsstring) : regex := seqOf (map chr s).
Definition wordI (s : jsstring) : regex := seqOf (map chrI s).

Definition oneOf (cs : list codeunit) (c : codeunit) : bool :=
  existsb (N.eqb c) cs.

(** The pattern of line 187: the key [travel_plan] between double quotes,
    white space, a colon, white space, an opening brace, any units other
    than a closing brace, and a closing brace. *)
Definition travelPlanRe : regex :=
  seqOf [ word (litq "`travel_plan`"); Star isWhiteSpace; chr 58%N;
          Star isWhiteSpace; chr lbrace;
          Star (fun c => negb (N.eqb c rbrace)); chr rbrace ].

(** The class of the two quotes, the colon and white space, and the
    negated class of the comma, the newline, the two quotes and the closing
    brace. *)
Definition labelGlue (c : codeunit) : bool :=
  oneOf [squote; dquote; 58%N] c || isWhiteSpace c.

Definition fieldUnit (c : codeunit) : bool :=
  negb (oneOf [44%N; newline; dquote; squote; rbrace] c).

(** The patterns of lines 272-274, under the [i] flag: the label
    ([destination], [duration] or [mode]), any run of the first class, and
    group 1, a non-empty run of the second class. *)
Definition fieldRe (label : string) : regex :=
  seqOf [ wordI (lit label); Star labelGlue; Group (Plus fieldUnit) ].

(** Removal of every single and double quote (lines 276-278). *)
Definition stripQuotes (s : jsstring) : jsstring :=
  filter (fun c => negb (oneOf [squote; dquote] c)) s.

End Regex.

Import Regex.

(* ================================================================== *)
(** ** Balanced-JSON extractor (main.ts, lines 159-177 and 195-197) *)
(* ================================================================== *)

(** The [for] loop of lines 165-174, started at index [i] on the rest of
    the text from that index on. Returns [jsonEnd], [-1] when the loop
    runs off the end of the text. *)
Fixpoint scanBraces (rest : jsstring) (i : Z) (braceCount : Z) : Z :=
  match rest with
  | [] => -1
  | c :: rest' =>
      let braceCount := if N.eqb c lbrace then braceCount + 1 else braceCount in
      if N.eqb c rbrace then
        let braceCount := braceCount - 1 in
        if braceCount =? 0 then i else scanBraces rest' (i + 1) braceCount
      else scanBraces rest' (i + 1) braceCount
  end.

Definition jsonStart (fullResponse : jsstring) : Z := indexOf lbrace fullResponse.

Definition jsonEnd (fullResponse : jsstring) : Z :=
  scanBraces (skipn (Z.to_nat (jsonStart fullResponse)) fullResponse)
             (jsonStart fullResponse) 0.

Inductive Extraction :=
| NoCandidate
| IncompleteObject
| Candidate (jsonStr : jsstring).

Definition extractJson (fullResponse : jsstring) : Extraction :=
  if negb (jsonStart fullResponse =? -1) then
    if negb (jsonEnd fullResponse =? -1) then
      Candidate (substring fullResponse (jsonStart fullResponse) (jsonEnd fullResponse + 1))
    else IncompleteObject
  else NoCandidate.

(** Brace depth of a text: opening braces minus closing braces. *)
Fixpoint depth (s : jsstring) : Z :=
  match s with
  | [] => 0
  | c :: s' =>
      (if N.eqb c lbrace then 1 else 0) - (if N.eqb c rbrace then 1 else 0) + depth s'
  end.

Definition isBrace (c : codeunit) : bool := N.eqb c lbrace || N.eqb c rbrace.

Definition braceFree (s : jsstring) : Prop := Forall (fun c => isBrace c = false) s.

(** Text in which every brace is matched. *)
Inductive balancedText : jsstring -> Prop :=
| balanced_nil : balancedText []
| balanced_unit c s :
    isBrace c = false -> balancedText s -> balancedText (c :: s)
| balanced_nest b s :
    balancedText b -> balancedText s ->
    balancedText (lbrace :: b ++ rbrace :: s).

(** A well-formed balanced-brace object: an opening brace, balanced text,
    the matching closing brace. *)
Definition balancedObject (o : jsstring) : Prop :=
  exists b, balancedText b /\ o = lbrace :: b ++ [rbrace].

(* ================================================================== *)
(** ** Stream consumer (main.ts, lines 121-151) *)
(* ================================================================== *)

(** An item of a message whose content is a list. Only items tagged
    [text] are read, and those carry a string in their [text] field (the
    text blocks of the agent library). *)
Record ContentItem := mkItem { itemType : jsstring; itemText : jsstring }.

(** The [content] field of an event: a string, a list of items, or
    anything else (including none). *)
Inductive Content :=
| StringContent (s : jsstring)
| ArrayContent (items : list ContentItem)
| OtherContent.

(** A response event. The [name] and [input] of a [tool_use] event are
    only logged and are left out. *)
Record Event := mkEvent { eventType : jsstring; content : Content }.

(** The inner loop of lines 139-143. *)
Definition appendItems (fullResponse : jsstring) (items : list ContentItem)
  : jsstring :=
  fold_left
    (fun acc item =>
       if JS.eqb (itemType item) (lit "text") then acc ++ itemText item else acc)
    items fullResponse.

(** One turn of the [for await] loop. *)
Definition consumeEvent (fullResponse : jsstring) (event : Event) : jsstring :=
  if JS.eqb (eventType event) (lit "text") then
    match content event with
    | StringContent c => fullResponse ++ c
    | _ => fullResponse
    end
  else if JS.eqb (eventType event) (lit "message") then
    match content event with
    | StringContent c => fullResponse ++ c
    | ArrayContent items => appendItems fullResponse items
    | OtherContent => fullResponse
    end
  else fullResponse.

(** The whole loop, from [let fullResponse = ""]. *)
Definition consume (events : list Event) : jsstring :=
  fold_left consumeEvent events [].

(** The textual contribution of one event, as the specification words
    it. *)
Definition itemContribution (item : ContentItem) : jsstring :=
  if JS.eqb (itemType item) (lit "text") then itemText item else [].

Definition contribution (event : Event) : jsstring :=
  if JS.eqb (eventType event) (lit "text") then
    match content event with
    | StringContent c => c
    | _ => []
    end
  else if JS.eqb (eventType event) (lit "message") then
    match content event with
    | StringContent c => c
    | ArrayContent items => List.concat (map itemContribution items)
    | OtherContent => []
    end
  else [].

(* ================================================================== *)
(** ** Requests, object literals and the mode table *)
(* ================================================================== *)

(** The body of the request, as far as the handler reads it. [budget] is
    [None] when the field is absent; a budget that is not a string acts in
    the handler as the string it converts to. *)
Record TravelRequest := mkRequest {
  destination : jsstring;
  duration : Z;
  travelers : Z;
  budget : option jsstring;
  interests : list jsstring;
  mobility : jsstring;
  food_preference : option jsstring
}.

(** What a property read on an object literal can find besides the
    literal's own entries: the members of [Object.prototype], which are
    all built-in functions. The runtime deletes the [__proto__] accessor
    from [Object.prototype] at start-up, so that name is not among them. *)
Inductive Member :=
| BuiltinFunction (name : jsstring).

Definition objectPrototype (key : jsstring) : option Member :=
  if JS.eqb key (lit "constructor") then Some (BuiltinFunction (lit "Object"))
  else if existsb (JS.eqb key)
            (map lit [ "hasOwnProperty"; "isPrototypeOf"; "propertyIsEnumerable";
                       "toLocaleString"; "toString"; "valueOf";
                       "__defineGetter__"; "__defineSetter__";
                       "__lookupGetter__"; "__lookupSetter__" ]%string)
  then Some (BuiltinFunction key)
  else None.

(** [String(m)] for such a member. *)
Definition memberToString (m : Member) : jsstring :=
  match m with
  | BuiltinFunction name => lit "function " ++ name ++ lit "() { [native code] }"
  end.

Inductive Property (A : Type) :=
| Own (a : A)
| Inherited (m : Member).

Arguments Own {A} a.
Arguments Inherited {A} m.

(** [obj[key]] for an object literal [obj] with the given entries; [None]
    stands for [undefined]. *)
Definition getProperty {A} (obj : list (jsstring * A)) (key : jsstring)
  : option (Property A) :=
  match find (fun kv => JS.eqb (fst kv) key) obj with
  | Some (_, a) => Some (Own a)
  | None => option_map Inherited (objectPrototype key)
  end.

(** [x || d] where [x], when defined, is truthy (a non-empty string, an
    object or a function). *)
Definition orElse {A} (x : option A) (d : A) : A :=
  match x with
  | Some a => a
  | None => d
  end.

(** The property key that [travelRequest.budget] denotes. *)
Definition budgetKey (req : TravelRequest) : jsstring := toStringOpt (budget req).

(** [travelRequest.budget === s] *)
Definition budgetIs (req : TravelRequest) (s : string) : bool :=
  match budget req with
  | Some b => JS.eqb b (lit s)
  | None => false
  end.

Record ModeProfile := mkMode {
  name : jsstring;
  emoji : jsstring;
  attractions : jsstring;
  pace : jsstring;
  daily : jsstring
}.

Definition flowMode : ModeProfile :=
  mkMode (lit "Going with the Flow") [55356; 57098]%N
         (lit "2-3") (lit "Relaxed") (lit "$80-120").

Definition moderateMode : ModeProfile :=
  mkMode (lit "Moderate Explorer") [9878; 65039]%N
         (lit "4-5") (lit "Balanced") (lit "$120-180").

Definition intenseMode : ModeProfile :=
  mkMode (lit "Intense Adventure") [55357; 56613]%N
         (lit "6-8") (lit "Fast-paced") (lit "$180-250").

(** The table, written out three times in the handler (lines 200, 234
    and 281) with the same entries. *)
Definition modeDetails : list (jsstring * ModeProfile) :=
  [ (lit "budget", flowMode); (lit "moderate", moderateMode);
    (lit "luxury", intenseMode) ].

(** [modeDetails[travelRequest.budget] || modeDetails.moderate] *)
Definition lookupMode (req : TravelRequest) : Property ModeProfile :=
  orElse (getProperty modeDetails (budgetKey req)) (Own moderateMode).

(** The ternary of lines 219, 253 and 301. *)
Definition flexibilityOf (req : TravelRequest) : jsstring :=
  if budgetIs req "budget" then lit "High"
  else if budgetIs req "moderate" then lit "Medium"
  else lit "Low".

(** The flexibility label that goes with each profile of the table. *)
Definition flexibilityLabel (m : ModeProfile) : jsstring :=
  if JS.eqb (name m) (name flowMode) then lit "High"
  else if JS.eqb (name m) (name moderateMode) then lit "Medium"
  else lit "Low".

(* ================================================================== *)
(** ** Budget calculator (lines 207-208) *)
(* ================================================================== *)

Definition totalBudgetOf (daily : jsstring) (duration : Z) : jsstring :=
  let dailyBudgetRange := JS.split 45%N (removeFirst 36%N daily) in
  lit "$"
    ++ numberToString
         (mul (parseInt (toStringOpt (nth_error dailyBudgetRange 0))) (Int duration))
    ++ lit "-"
    ++ numberToString
         (mul (parseInt (toStringOpt (nth_error dailyBudgetRange 1))) (Int duration)).

(* ================================================================== *)
(** ** Task composer (lines 96-116) *)
(* ================================================================== *)

Definition budgetToMode : list (jsstring * jsstring) :=
  [ (lit "budget", lit "Going with the Flow");
    (lit "moderate", lit "Moderate Explorer");
    (lit "luxury", lit "Intense Adventure") ].

Definition selectedModeOf (req : TravelRequest) : Property jsstring :=
  orElse (getProperty budgetToMode (budgetKey req)) (Own (lit "Moderate Explorer")).

Definition propertyToString (p : Property jsstring) : jsstring :=
  match p with
  | Own s => s
  | Inherited m => memberToString m
  end.

(** [travelRequest.food_preference || "Any"]: the empty string is falsy. *)
Definition foodOf (req : TravelRequest) : jsstring :=
  match food_preference req with
  | Some (c :: s) => c :: s
  | _ => lit "Any"
  end.

Definition taskOf (req : TravelRequest) : jsstring :=
  lit "Create a " ++ propertyToString (selectedModeOf req)
    ++ lit " travel plan for " ++ destination req
    ++ lit " (" ++ numberToString (Int (duration req))
    ++ lit " days, " ++ numberToString (Int (travelers req))
    ++ lit " travelers)." ++ [newline; newline]
    ++ lit "Budget: " ++ toStringOpt (budget req) ++ [newline]
    ++ lit "Interests: " ++ join (lit ", ") (interests req) ++ [newline]
    ++ lit "Food: " ++ foodOf req ++ [newline]
    ++ lit "Transport: " ++ mobility req ++ [newline; newline]
    ++ lit "Generate a detailed day-by-day itinerary with attractions, restaurants, timing, and costs."
    ++ [newline; newline]
    ++ lit "Use the travel_plan_generator tool to create this plan."
    ++ [newline; newline]
    ++ lit "Make sure to use the available MCP servers (Firecrawl for research, Notion for potential saving) and provide detailed, actionable travel plans.".

(* ================================================================== *)
(** ** Plan objects *)
(* ================================================================== *)

Record PlanResult := mkPlan {
  mode_name : jsstring;
  mode_emoji : jsstring;
  daily_attractions : jsstring;
  plan_pace : jsstring;
  daily_budget : jsstring;
  total_budget : jsstring;
  flexibility : jsstring;
  description : jsstring;
  detailed_plan : jsstring
}.

(** [extracted_info] of the third shape of [debug_info]: the duration is
    the recovered text or the number of the request, the mode the
    recovered text or [selectedMode]. *)
Record ExtractedInfo := mkExtracted {
  extractedDestination : jsstring;
  extractedDuration : jsstring + Z;
  extractedMode : Property jsstring
}.

(** The three shapes of [debug_info] (lines 226, 260 and 308). *)
Inductive DebugInfo :=
| TextDebug (response_length : Z) (has_destination : bool)
            (budget_selected : option jsstring)
| EmptyDebug (response_length : Z) (task_sent : jsstring)
             (budget_selected : option jsstring)
| FallbackDebug (response_length : Z) (parse_error : jsstring)
                (extracted_info : ExtractedInfo)
                (json_extraction_failed using_full_response_as_plan : bool).

Record PlanData := mkPlanData {
  plans : list PlanResult;
  selected_mode : jsstring;
  full_ai_response : jsstring;
  debug_info : DebugInfo
}.

(** The value of the variable [planData] after the cascade: an object that
    [JSON.parse] returned, used as it is, or an object that the handler
    built. *)
Inductive PlanValue :=
| Parsed (v : JSON)
| Built (pd : PlanData).

(* ================================================================== *)
(** ** The synthesis tiers *)
(* ================================================================== *)

(** [mode.daily.replace(...)] is the first use of [mode] in each tier: on
    an inherited member [mode.daily] is [undefined] and the call throws. *)
Definition withMode {A} (req : TravelRequest) (k : ModeProfile -> A)
  : completion A :=
  match lookupMode req with
  | Own mode => Normal (k mode)
  | Inherited _ =>
      Throw (mkError TypeError
               (lit "Cannot read properties of undefined (reading 'replace')"))
  end.

(** The fields that the three built shapes share (for instance lines
    213-219), around a description and a detailed plan. *)
Definition planOf (req : TravelRequest) (mode : ModeProfile)
  (description detailedPlan : jsstring) : PlanResult :=
  mkPlan (name mode) (emoji mode) (attractions mode) (pace mode) (daily mode)
         (totalBudgetOf (daily mode) (duration req))
         (flexibilityOf req) description detailedPlan.

(** Lines 199-231: a response without any opening brace. *)
Definition planFromText (req : TravelRequest) (fullResponse : jsstring)
  : completion PlanData :=
  withMode req (fun mode =>
    mkPlanData
      [ planOf req mode
          (lit "Customized " ++ toLowerCase (name mode) ++ lit " plan for your "
             ++ toStringOpt (budget req) ++ lit " budget and preferences.")
          fullResponse ]
      (name mode)
      fullResponse
      (TextDebug (JS.length fullResponse)
                 (includes fullResponse (destination req))
                 (budget req))).

(** Lines 233-265: no response at all. *)
Definition planFromNothing (req : TravelRequest) (task : jsstring)
  : completion PlanData :=
  withMode req (fun mode =>
    mkPlanData
      [ planOf req mode
          (name mode ++ lit " plan for your " ++ toStringOpt (budget req)
             ++ lit " budget.")
          (lit "Sample plan for " ++ destination req
             ++ lit " - AI response was empty") ]
      (name mode)
      (lit "No AI response received")
      (EmptyDebug 0 (substring task 0 200 ++ lit "...") (budget req))).

(** Lines 272-278: the three fields looked up in the raw response. *)
Definition recovered (label : string) (fullResponse : jsstring) : option jsstring :=
  match search (fieldRe label) fullResponse with
  | Some m => Some (stripQuotes (trim (toStringOpt (group1 m))))
  | None => None
  end.

Definition extractedInfoOf (req : TravelRequest) (selectedMode : Property jsstring)
  (fullResponse : jsstring) : ExtractedInfo :=
  mkExtracted
    (orElse (recovered "destination" fullResponse) (destination req))
    (match recovered "duration" fullResponse with
     | Some s => inl s
     | None => inr (duration req)
     end)
    (match recovered "mode" fullResponse with
     | Some s => Own s
     | None => selectedMode
     end).

(** Lines 281-319: the object built from the recovered fields, the
    request and the caught error. *)
Definition fallbackPlan (req : TravelRequest) (fullResponse : jsstring)
  (parseError : Error) (info : ExtractedInfo) : completion PlanData :=
  withMode req (fun mode =>
    mkPlanData
      [ planOf req mode
          (lit "AI-generated " ++ toLowerCase (name mode) ++ lit " plan for "
             ++ extractedDestination info)
          fullResponse ]
      (name mode)
      fullResponse
      (FallbackDebug (JS.length fullResponse) (message parseError) info true true)).

(** The body of the outer [catch] (lines 267-322). *)
Definition planFromRawResponse (req : TravelRequest)
  (selectedMode : Property jsstring) (fullResponse : jsstring)
  (parseError : Error) : completion PlanData :=
  fallbackPlan req fullResponse parseError
    (extractedInfoOf req selectedMode fullResponse).

Definition incompleteJson : Error :=
  mkError PlainError (lit "Incomplete JSON in response").

Definition built (c : completion PlanData) : completion PlanValue :=
  bind c (fun pd => Normal (Built pd)).

Section Handler.

(** [JSON.parse], a function of the host. The handler is modelled over
    any such function; [Json.parse] is the one used on concrete texts. *)
Variable JSON_parse : jsstring -> completion JSON.

Definition parsedBy (text : jsstring) : completion PlanValue :=
  bind (JSON_parse text) (fun v => Normal (Parsed v)).

(** Lines 181-194: the strict parse, and in its [catch] the parse of the
    [travel_plan] member alone. *)
Definition parseCandidate (jsonStr : jsstring) : completion PlanValue :=
  tryCatch (parsedBy jsonStr)
    (fun parseError =>
       match search travelPlanRe jsonStr with
       | Some travelPlanMatch =>
           let simplifiedJson := lit "{" ++ whole travelPlanMatch ++ lit "}" in
           parsedBy simplifiedJson
       | None => Throw parseError
       end).

(** The body of the outer [try] (lines 158-266). *)
Definition tryBody (req : TravelRequest) (task fullResponse : jsstring)
  : completion PlanValue :=
  if negb (jsonStart fullResponse =? -1) then
    if negb (jsonEnd fullResponse =? -1) then
      parseCandidate
        (substring fullResponse (jsonStart fullResponse) (jsonEnd fullResponse + 1))
    else Throw incompleteJson
  else if JS.length fullResponse >? 0 then built (planFromText req fullResponse)
  else built (planFromNothing req task).

(** Lines 157-322: the value of [planData] once the outer [try]/[catch]
    is through, or the error that escapes it. *)
Definition synthesize (req : TravelRequest) (fullResponse : jsstring)
  : completion PlanValue :=
  tryCatch (tryBody req (taskOf req) fullResponse)
    (fun parseError =>
       built (planFromRawResponse req (selectedModeOf req) fullResponse parseError)).

(** What the client receives (lines 324-342): the plan with status 200, or
    the error shape with status 500. *)
Inductive Response :=
| PlanResponse (body : PlanValue)
| ErrorResponse (error details : jsstring).

Definition respond (c : completion PlanValue) : Response :=
  match c with
  | Normal planData => PlanResponse planData
  | Throw e => ErrorResponse (lit "Failed to generate plans") (message e)
  end.

(** The handler of [/api/generate-plans] on a request and the events that
    the agent then produces. *)
Definition generatePlans (req : TravelRequest) (events : list Event) : Response :=
  respond (synthesize req (consume events)).

End Handler.

(** A request as the data model describes it: a budget of the
    enumeration and a positive number of days. *)
Definition validRequest (req : TravelRequest) : Prop :=
  (budget req = Some (lit "budget") \/ budget req = Some (lit "moderate")
   \/ budget req = Some (lit "luxury"))
  /\ 0 < duration req.

(** A request whose budget names no member of [Object.prototype]: every
    budget of the enumeration, an absent budget, and any other string but
    the eleven inherited names. *)
Definition plainBudget (req : TravelRequest) : Prop :=
  objectPrototype (budgetKey req) = None.

(** [planData] contains a plan result: a built object has a non-empty
    [plans], a parsed one has a non-empty array under [plans]. *)
Definition containsPlanResult (pv : PlanValue) : Prop :=
  match pv with
  | Parsed v => exists p ps, Json.get (lit "plans") v = Some (JArray (p :: ps))
  | Built pd => plans pd <> []
  end.

(** Where [planData] comes from when the cascade ends normally on the
    answer [text]: either it is what [JSON_parse] returned on the candidate
    cut out of [text], or, that parse having failed, on the [travel_plan]
    member found in the candidate and wrapped in braces; or it was built
    with exactly one plan result. *)
Definition wellFormedBy (JSON_parse : jsstring -> completion JSON)
  (text : jsstring) (pv : PlanValue) : Prop :=
  match pv with
  | Parsed v =>
      exists jsonStr,
        extractJson text = Candidate jsonStr
        /\ (JSON_parse jsonStr = Normal v
            \/ exists parseError travelPlanMatch,
                 JSON_parse jsonStr = Throw parseError
                 /\ search travelPlanRe jsonStr = Some travelPlanMatch
                 /\ JSON_parse (lit "{" ++ whole travelPlanMatch ++ lit "}") = Normal v)
  | Built pd => exists plan, plans pd = [plan]
  end.

(** The fields of a plan result that the budget tier and the duration
    determine. *)
Definition budgetFields (p : PlanResult) :=
  (mode_name p, mode_emoji p, daily_attractions p, plan_pace p,
   daily_budget p, total_budget p, flexibility p).

(** A built object with its description and its [extracted_info] blanked:
    what is left does not depend on the recovered fields. *)
Definition withoutDescription (p : PlanResult) : PlanResult :=
  mkPlan (mode_name p) (mode_emoji p) (daily_attractions p) (plan_pace p)
         (daily_budget p) (total_budget p) (flexibility p) []
         (detailed_plan p).

Definition withoutExtracted (d : DebugInfo) : DebugInfo :=
  match d with
  | FallbackDebug len err _ failed full =>
      FallbackDebug len err (mkExtracted [] (inl []) (Own [])) failed full
  | _ => d
  end.

Definition withoutRecovered (pd : PlanData) : PlanData :=
  mkPlanData (map withoutDescription (plans pd)) (selected_mode pd)
             (full_ai_response pd) (withoutExtracted (debug_info pd)).

(** The constant tail of every task string. *)
Definition taskTail : jsstring :=
  [newline; newline]
    ++ lit "Generate a detailed day-by-day itinerary with attractions, restaurants, timing, and costs."
    ++ [newline; newline]
    ++ lit "Use the travel_plan_generator tool to create this plan."
    ++ [newline; newline]
    ++ lit "Make sure to use the available MCP servers (Firecrawl for research, Notion for potential saving) and provide detailed, actionable travel plans.".

(** Sample requests. *)
Definition tokyoRequest : TravelRequest :=
  mkRequest (lit "Tokyo") 3 2 (Some (lit "luxury"))
            [lit "food"; lit "temples"] (lit "public_transport") None.

Definition premiumRequest : TravelRequest :=
  mkRequest (lit "Tokyo") 3 2 (Some (lit "premium"))
            [lit "food"; lit "temples"] (lit "public_transport") None.

Definition kyotoRequest : TravelRequest :=
  mkRequest (lit "Kyoto") 3 4 (Some (lit "luxury"))
            [lit "gardens"] (lit "walking") (Some (lit "Vegetarian")).

Definition constructorRequest : TravelRequest :=
  mkRequest (lit "Tokyo") 3 2 (Some (lit "constructor"))
            [lit "food"; lit "temples"] (lit "public_transport") None.

(* ================================================================== *)
(** ** The texts that a pattern accepts *)
(* ================================================================== *)

(** [accepts r w cap cap']: the pattern [r] can match exactly the text
    [w], turning the capture [cap] into [cap']. *)
Inductive accepts : regex -> jsstring -> option jsstring -> option jsstring -> Prop :=
| accepts_eps cap : accepts Eps [] cap cap
| accepts_unit p c cap : p c = true -> accepts (Unit p) [c] cap cap
| accepts_star p w cap :
    Forall (fun c => p c = true) w -> accepts (Star p) w cap cap
| accepts_plus p w cap :
    w <> [] -> Forall (fun c => p c = true) w -> accepts (Plus p) w cap cap
| accepts_seq a b w1 w2 cap0 cap1 cap2 :
    accepts a w1 cap0 cap1 -> accepts b w2 cap1 cap2 ->
    accepts (Seq a b) (w1 ++ w2) cap0 cap2
| accepts_group a w cap0 cap1 :
    accepts a w cap0 cap1 -> accepts (Group a) w cap0 (Some w).

(** Two units that differ at most by the case of an ASCII letter. *)
Definition sameLetter (x c : codeunit) : Prop := x = lowerUnit c \/ x = upperUnit c.

(* ================================================================== *)
(** ** The objects built by the cascade (main.ts, lines 210-319) *)
(* ================================================================== *)

(** [debug_info.response_length], present in the three shapes. *)
Definition responseLength (d : DebugInfo) : Z :=
  match d with
  | TextDebug n _ _ => n
  | EmptyDebug n _ _ => n
  | FallbackDebug n _ _ _ _ => n
  end.

(** The error of [withMode]. *)
Definition modeTypeError : Error :=
  mkError TypeError (lit "Cannot read properties of undefined (reading 'replace')").

(** The three objects that the handler builds. *)
Definition textPlanData (req : TravelRequest) (mode : ModeProfile) (text : jsstring)
  : PlanData :=
  mkPlanData
    [ planOf req mode
        (lit "Customized " ++ toLowerCase (name mode) ++ lit " plan for your "
           ++ toStringOpt (budget req) ++ lit " budget and preferences.")
        text ]
    (name mode) text
    (TextDebug (JS.length text) (includes text (destination req)) (budget req)).

Definition emptyPlanData (req : TravelRequest) (mode : ModeProfile) : PlanData :=
  mkPlanData
    [ planOf req mode
        (name mode ++ lit " plan for your " ++ toStringOpt (budget req)
           ++ lit " budget.")
        (lit "Sample plan for " ++ destination req ++ lit " - AI response was empty") ]
    (name mode) (lit "No AI response received")
    (EmptyDebug 0 (substring (taskOf req) 0 200 ++ lit "...") (budget req)).

Definition fallbackPlanData (req : TravelRequest) (mode : ModeProfile)
  (text : jsstring) (e : Error) : PlanData :=
  mkPlanData
    [ planOf req mode
        (lit "AI-generated " ++ toLowerCase (name mode) ++ lit " plan for "
           ++ extractedDestination (extractedInfoOf req (selectedModeOf req) text))
        text ]
    (name mode) text
    (FallbackDebug (JS.length text) (message e)
                   (extractedInfoOf req (selectedModeOf req) text) true true).

(* ================================================================== *)
(** ** Planning tools (tools/travel-planning.ts) *)
(* ================================================================== *)

Module Tools.

(** A number written with one decimal in the source ([4.5], [0.7]) is kept
    as its number of tenths. *)
Definition tenths := Z.

Record Attraction := mkAttraction {
  attractionName : jsstring;
  attractionType : jsstring;
  attractionRating : tenths;
  attractionDescription : jsstring;
  estimated_cost : jsstring;
  attractionDuration : jsstring
}.

Record Restaurant := mkRestaurant {
  restaurantName : jsstring;
  cuisine : jsstring;
  price_range : jsstring;
  restaurantRating : tenths;
  specialties : list jsstring
}.

(** The plans of the generator tool carry no detailed plan. *)
Record ToolPlan := mkToolPlan {
  tool_mode_name : jsstring;
  tool_mode_emoji : jsstring;
  tool_daily_attractions : jsstring;
  tool_pace : jsstring;
  tool_daily_budget : jsstring;
  tool_total_budget : jsstring;
  tool_flexibility : jsstring;
  tool_description : jsstring
}.

Definition PLANS_DIR : jsstring := lit "./travel-plans".

(** [budget === "budget" ? 0.7 : budget === "luxury" ? 1.5 : 1.0] *)
Definition budgetMultiplier (budget : jsstring) : tenths :=
  if JS.eqb budget (lit "budget") then 7
  else if JS.eqb budget (lit "luxury") then 15
  else 10.

Section Host.

(** [Math.round(base * multiplier)], computed by the host on doubles. *)
Variable roundTimes : Z -> tenths -> Z.

(** [String.prototype.toLowerCase] of the host, on any text. *)
Variable lower : jsstring -> jsstring.

Definition costOf (base : Z) (budget : jsstring) : jsstring :=
  lit "$" ++ numberToString (Int (roundTimes base (budgetMultiplier budget))).

Definition baseAttractions (destination budget : jsstring) : list Attraction :=
  [ mkAttraction (destination ++ lit " Historic Center") (lit "Culture") 45
      (lit "Explore the historic heart of the city")
      (costOf 15 budget) (lit "2-3 hours");
    mkAttraction (destination ++ lit " Art Museum") (lit "Art") 43
      (lit "World-class art collection")
      (costOf 20 budget) (lit "2-4 hours");
    mkAttraction (destination ++ lit " Central Park") (lit "Nature") 46
      (lit "Beautiful green space for relaxation")
      (lit "Free") (lit "1-3 hours");
    mkAttraction (destination ++ lit " Food Market") (lit "Food") 47
      (lit "Local food and cultural experience")
      (costOf 25 budget) (lit "1-2 hours");
    mkAttraction (destination ++ lit " Observation Deck") (lit "Views") 44
      (lit "Panoramic city views")
      (costOf 30 budget) (lit "1-2 hours") ].

(** The test of lines 103-106 for one attraction. *)
Definition ofInterest (interests : list jsstring) (attraction : Attraction) : bool :=
  existsb
    (fun interest =>
       includes (lower (attractionType attraction)) (lower interest)
       || includes (lower (attractionDescription attraction)) (lower interest))
    interests.

(** Lines 54-111. *)
Definition generateAttractions (destination : jsstring)
  (interests : list jsstring) (budget : jsstring) : list Attraction :=
  if Z.of_nat (List.length interests) >? 0 then
    firstn 8 (filter (ofInterest interests) (baseAttractions destination budget))
  else baseAttractions destination budget.

End Host.

(** Lines 114-140. *)
Definition generateRestaurants (destination budget : jsstring) : list Restaurant :=
  [ mkRestaurant (destination ++ lit " Local Bistro") (lit "Local")
      (if JS.eqb budget (lit "budget") then lit "$"
       else if JS.eqb budget (lit "luxury") then lit "$$$" else lit "$$")
      44 [lit "Traditional dishes"; lit "Local ingredients"];
    mkRestaurant (destination ++ lit " Street Food Corner") (lit "Various")
      (lit "$") 46 [lit "Quick bites"; lit "Local street food"];
    mkRestaurant (destination ++ lit " Fine Dining") (lit "International")
      (if JS.eqb budget (lit "budget") then lit "$$" else lit "$$$")
      48 [lit "Gourmet cuisine"; lit "Wine pairing"] ].

(** [`$${low * request.duration}-${high * request.duration}`] *)
Definition totalOf (low high duration : Z) : jsstring :=
  lit "$" ++ numberToString (mul (Int low) (Int duration))
    ++ lit "-" ++ numberToString (mul (Int high) (Int duration)).

(** Lines 176-222. *)
Definition generateFlowPlan (request : TravelRequest) : ToolPlan :=
  mkToolPlan (lit "Going with the Flow") [55356; 57098]%N (lit "2-3")
    (lit "Relaxed") (lit "$80-120") (totalOf 80 120 (duration request))
    (lit "High")
    (lit "Perfect for a relaxed exploration with plenty of time to soak in the atmosphere.").

Definition generateModeratePlan (request : TravelRequest) : ToolPlan :=
  mkToolPlan (lit "Moderate Explorer") [9878; 65039]%N (lit "4-5")
    (lit "Balanced") (lit "$120-180") (totalOf 120 180 (duration request))
    (lit "Medium")
    (lit "A balanced approach combining must-see attractions with local experiences.").

Definition generateIntensePlan (request : TravelRequest) : ToolPlan :=
  mkToolPlan (lit "Intense Adventure") [55357; 56613]%N (lit "6-8")
    (lit "Fast-paced") (lit "$180-250") (totalOf 180 250 (duration request))
    (lit "Low")
    (lit "Maximum exploration with packed itineraries for comprehensive coverage.").

(** The fields that a plan of the tool shares with a plan result of the
    handler. *)
Definition toolFields (p : ToolPlan) :=
  (tool_mode_name p, tool_mode_emoji p, tool_daily_attractions p, tool_pace p,
   tool_daily_budget p, tool_total_budget p, tool_flexibility p).

(** Lines 300-304: the generator tool always makes the three plans. *)
Definition generatedPlans (request : TravelRequest) : list ToolPlan :=
  [ generateFlowPlan request; generateModeratePlan request;
    generateIntensePlan request ].

Definition isAlnum (c : codeunit) : bool :=
  ((97 <=? c) && (c <=? 122) || (65 <=? c) && (c <=? 90)
   || (48 <=? c) && (c <=? 57))%N.

(** The replacement of lines 252 and 308: every unit that is not an ASCII
    letter or digit becomes an underscore. *)
Definition sanitize (s : jsstring) : jsstring :=
  map (fun c => if isAlnum c then c else 95%N) s.

(** A unit that the replacement can leave in a text. *)
Definition fileSafe (c : codeunit) : Prop := isAlnum c = true \/ c = 95%N.

(** Line 252, and line 308 at the time [now] of [Date.now()]. *)
Definition researchFilename (destination : jsstring) : jsstring :=
  PLANS_DIR ++ lit "/" ++ sanitize destination ++ lit "_research.json".

Definition plansFilename (destination : jsstring) (now : Z) : jsstring :=
  PLANS_DIR ++ lit "/" ++ sanitize destination ++ lit "_plans_"
    ++ numberToString (Int now) ++ lit ".json".

(** [Math.round] of the exact product, halves rounded up. *)
Definition roundHalfUp (base : Z) (multiplier : tenths) : Z :=
  (2 * base * multiplier + 10) / 20.

End Tools.

(* ================================================================== *)
(** ** Tactics for literal texts *)
(* ================================================================== *)

(** A unit that does not occur in a literal text. *)
Ltac absent_from_literal :=
  let Hin := fresh "Hin" in
  intros Hin; repeat (destruct Hin as [Hin | Hin]; [discriminate Hin|]); exact Hin.

(** The depth of each of the first [n] prefixes of a literal text. *)
Tactic Notation "prefix_depths" integer(n) :=
  let k := fresh "k" in
  let Hk := fresh "Hk" in
  intros k Hk;
  do n (destruct k as [| k]; [try lia; discriminate|]);
  simpl in Hk; lia.

(* ================================================================== *)
(** ** Properties of the string and number primitives *)
(* ================================================================== *)

Section Primitives.

Lemma jseqb_refl (s : jsstring) : JS.eqb s s = true.
Proof.
  induction s as [| c s IH]; simpl; [reflexivity|].
  now rewrite N.eqb_refl, IH.
Qed.

Lemma jseqb_eq (a b : jsstring) : JS.eqb a b = true <-> a = b.
Proof.
  split.
  - revert b. induction a as [| x a IH]; intros [| y b] H; simpl in H;
      try discriminate; [reflexivity|].
    apply andb_true_iff in H as [Hx Hab].
    apply N.eqb_eq in Hx. subst. f_equal. now apply IH.
  - intros ->. apply jseqb_refl.
Qed.

Lemma jslength_app (a b : jsstring) : JS.length (a ++ b) = JS.length a + JS.length b.
Proof. unfold JS.length. rewrite List.length_app. lia. Qed.

Lemma jslength_nonneg (s : jsstring) : 0 <= JS.length s.
Proof. unfold JS.length. lia. Qed.

Lemma clamp_inside (s : jsstring) (i : Z) :
  0 <= i <= JS.length s -> clamp s i = i.
Proof. intros H. unfold clamp. lia. Qed.

(** [substring] between two offsets in order and in range cuts the middle
    out. *)
Lemma substring_middle (pre mid tail : jsstring) :
  substring (pre ++ mid ++ tail) (JS.length pre) (JS.length pre + JS.length mid) = mid.
Proof.
  pose proof (jslength_nonneg pre). pose proof (jslength_nonneg mid).
  pose proof (jslength_nonneg tail).
  unfold substring.
  rewrite !clamp_inside by (rewrite !jslength_app; lia).
  rewrite Z.min_l, Z.max_r by lia.
  replace (JS.length pre + JS.length mid - JS.length pre) with (JS.length mid) by lia.
  unfold JS.length. rewrite !Nat2Z.id.
  rewrite skipn_app, skipn_all, Nat.sub_diag. simpl.
  rewrite firstn_app, firstn_all, Nat.sub_diag. simpl. apply app_nil_r.
Qed.

Lemma substring_prefix (s : jsstring) (n : nat) :
  (n <= List.length s)%nat -> substring s 0 (Z.of_nat n) = firstn n s.
Proof.
  intros Hn. unfold substring.
  rewrite !clamp_inside by (unfold JS.length; lia).
  rewrite Z.min_l, Z.max_r by lia.
  rewrite Z.sub_0_r, Nat2Z.id. reflexivity.
Qed.

Lemma indexOfFrom_absent c s i : ~ In c s -> indexOfFrom c s i = -1.
Proof.
  revert i. induction s as [| x s IH]; intros i Hin; simpl; [reflexivity|].
  destruct (N.eqb x c) eqn:E.
  - apply N.eqb_eq in E. subst. exfalso. apply Hin. now left.
  - apply IH. intros H. apply Hin. now right.
Qed.

Lemma indexOfFrom_first c pre rest i :
  ~ In c pre -> indexOfFrom c (pre ++ c :: rest) i = i + JS.length pre.
Proof.
  revert i. induction pre as [| x pre IH]; intros i Hin; simpl.
  - rewrite N.eqb_refl. unfold JS.length. simpl. lia.
  - destruct (N.eqb x c) eqn:E.
    + apply N.eqb_eq in E. subst. exfalso. apply Hin. now left.
    + rewrite IH by (intros H; apply Hin; now right).
      unfold JS.length. simpl List.length. lia.
Qed.

Lemma mod10_lt n : (n mod 10 < 10)%N.
Proof. apply N.mod_lt. discriminate. Qed.

Lemma div10_mod10 n : (n = n / 10 * 10 + n mod 10)%N.
Proof. rewrite (N.div_mod n 10) at 1 by discriminate. now rewrite N.mul_comm. Qed.

Lemma digitValue_decimal c : isDecimal c -> digitValue 10 c = Some (c - 48)%N.
Proof.
  intros [Hlo Hhi]. unfold digitValue.
  apply N.leb_le in Hlo as Hlo'. apply N.leb_le in Hhi as Hhi'.
  rewrite Hlo', Hhi'. simpl.
  destruct (N.ltb_spec (c - 48) 10); [reflexivity | lia].
Qed.

Lemma parseDigits_some s a :
  Forall isDecimal s ->
  parseDigits 10 s (Some a) = Some (fold_left digitStep s a).
Proof.
  intros Hs. revert a. induction Hs as [| c s Hc Hs IH]; intros a; simpl.
  - reflexivity.
  - rewrite (digitValue_decimal c Hc). apply IH.
Qed.

Lemma parseDigits_none s :
  Forall isDecimal s -> s <> [] ->
  parseDigits 10 s None = Some (fold_left digitStep s 0%N).
Proof.
  intros Hs Hne. destruct Hs as [| c s Hc Hs]; [congruence|].
  simpl. rewrite (digitValue_decimal c Hc).
  rewrite parseDigits_some by assumption. reflexivity.
Qed.

Lemma digitsAux_decimal fuel n acc :
  Forall isDecimal acc -> Forall isDecimal (digitsAux fuel n acc).
Proof.
  revert n acc. induction fuel as [| fuel IH]; intros n acc Hacc; simpl.
  - assumption.
  - assert (Hd : isDecimal (48 + n mod 10)%N).
    { pose proof (mod10_lt n) as Hm. unfold isDecimal.
      revert Hm. generalize (n mod 10)%N. intros; lia. }
    destruct (n / 10 =? 0)%N.
    + now constructor.
    + apply IH. now constructor.
Qed.

Lemma digitsAux_nonempty fuel n acc : digitsAux (S fuel) n acc <> [].
Proof.
  revert n acc. induction fuel as [| fuel IH]; intros n acc; simpl.
  - destruct (n / 10 =? 0)%N; discriminate.
  - destruct (n / 10 =? 0)%N; [discriminate|]. apply IH.
Qed.

Lemma digitsAux_S fuel n acc :
  digitsAux (S fuel) n acc =
  if (n / 10 =? 0)%N then (48 + n mod 10)%N :: acc
  else digitsAux fuel (n / 10)%N ((48 + n mod 10)%N :: acc).
Proof. reflexivity. Qed.

Lemma digitsAux_value fuel n acc :
  (n < 10 ^ N.of_nat (S fuel))%N ->
  fold_left digitStep (digitsAux (S fuel) n acc) 0%N = fold_left digitStep acc n.
Proof.
  revert n acc. induction fuel as [| fuel IH]; intros n acc Hn.
  - change (10 ^ N.of_nat 1)%N with 10%N in Hn.
    cbn [digitsAux]. rewrite (N.div_small n 10 Hn). cbn [N.eqb fold_left].
    unfold digitStep at 2. rewrite (N.mod_small n 10 Hn). f_equal. lia.
  - rewrite (digitsAux_S (S fuel)).
    destruct (N.eqb_spec (n / 10) 0) as [Hq | Hq].
    + cbn [fold_left]. unfold digitStep at 2. f_equal.
      pose proof (div10_mod10 n) as Hdm. rewrite Hq in Hdm.
      revert Hdm. generalize (n mod 10)%N. intros; lia.
    + rewrite IH.
      * cbn [fold_left]. unfold digitStep at 2. f_equal.
        pose proof (div10_mod10 n) as Hdm.
        revert Hdm. generalize (n mod 10)%N (n / 10)%N. intros; lia.
      * apply N.Div0.div_lt_upper_bound.
        rewrite <- N.pow_succ_r'. rewrite <- Nat2N.inj_succ. exact Hn.
Qed.

Lemma pos_lt_pow10 p : (N.pos p < 10 ^ N.of_nat (Pos.size_nat p))%N.
Proof.
  induction p as [p IH | p IH |]; cbn [Pos.size_nat];
    rewrite ?Nat2N.inj_succ, ?N.pow_succ_r'; cbn [N.of_nat N.pow]; lia.
Qed.

Lemma lt_pow10_size n : (n < 10 ^ N.of_nat (S (N.size_nat n)))%N.
Proof.
  rewrite Nat2N.inj_succ, N.pow_succ_r'.
  destruct n as [| p]; simpl N.size_nat.
  - simpl. lia.
  - pose proof (pos_lt_pow10 p). lia.
Qed.

Lemma digits_decimal n : Forall isDecimal (digits n).
Proof. apply digitsAux_decimal. constructor. Qed.

Lemma digits_nonempty n : digits n <> [].
Proof. apply digitsAux_nonempty. Qed.

(** Reading the digits that [digits] wrote gives the number back. *)
Lemma parseDigits_digits n : parseDigits 10 (digits n) None = Some n.
Proof.
  rewrite parseDigits_none by (apply digits_decimal || apply digits_nonempty).
  unfold digits. rewrite digitsAux_value by apply lt_pow10_size. reflexivity.
Qed.

Lemma decimal_not_space c : isDecimal c -> isWhiteSpace c = false.
Proof.
  intros [Hlo Hhi]. unfold isWhiteSpace.
  repeat match goal with
         | |- context [(?a <=? ?b)%N] => destruct (N.leb_spec a b); try lia
         | |- context [(?a =? ?b)%N] => destruct (N.eqb_spec a b); try lia
         end; reflexivity.
Qed.

Lemma parseInt_digits n : parseInt (digits n) = Int (Z.of_N n).
Proof.
  pose proof (digits_decimal n) as Hd. pose proof (digits_nonempty n) as Hne.
  pose proof (parseDigits_digits n) as Hp.
  unfold parseInt.
  destruct (digits n) as [| c s] eqn:E; [congruence|].
  inversion Hd as [| ? ? Hc Hs]; subst.
  cbn [trimStart]. rewrite (decimal_not_space c Hc).
  assert (H45 : (c =? 45)%N = false) by (apply N.eqb_neq; unfold isDecimal in Hc; lia).
  assert (H43 : (c =? 43)%N = false) by (apply N.eqb_neq; unfold isDecimal in Hc; lia).
  rewrite H45, H43. cbv beta iota zeta.
  destruct s as [| x r].
  - rewrite Hp. f_equal. lia.
  - inversion Hs as [| ? ? Hx _]; subst.
    assert (H120 : (x =? 120)%N = false)
      by (apply N.eqb_neq; unfold isDecimal in Hx; lia).
    assert (H88 : (x =? 88)%N = false)
      by (apply N.eqb_neq; unfold isDecimal in Hx; lia).
    rewrite H120, H88, andb_false_r. rewrite Hp. f_equal. lia.
Qed.

(** Within [2 ^ 53] in magnitude, the arithmetic of doubles is the
    arithmetic of integers. *)
Lemma safe_bound z : isSafe z -> Z.abs z <= 2 ^ 53.
Proof.
  unfold isSafe, MAX_SAFE_INTEGER. change (2 ^ 53) with 9007199254740992. lia.
Qed.

Lemma toDouble_exact z : Z.abs z <= 2 ^ 53 -> toDouble z = z.
Proof.
  intros H. unfold toDouble.
  destruct (Z.leb_spec (Z.abs z) (2 ^ 53)) as [_ | Hgt]; [reflexivity | lia].
Qed.

Lemma finite_below z : Z.abs z <= 2 ^ 53 -> isInfinite z = false.
Proof.
  intros H. unfold isInfinite. apply Z.leb_gt.
  assert (Hinf : 2 ^ 53 < infinity) by (vm_compute; reflexivity).
  lia.
Qed.

Lemma mul_exact x y :
  Z.abs x <= 2 ^ 53 -> Z.abs y <= 2 ^ 53 -> Z.abs (x * y) <= 2 ^ 53 ->
  mul (Int x) (Int y) = Int (x * y).
Proof.
  intros Hx Hy Hxy. unfold mul.
  rewrite (toDouble_exact x Hx), (toDouble_exact y Hy), (toDouble_exact _ Hxy).
  now rewrite (finite_below x Hx), (finite_below y Hy).
Qed.

Lemma numberToString_exact z :
  0 <= z <= 2 ^ 53 -> numberToString (Int z) = digits (Z.to_N z).
Proof.
  intros H. unfold numberToString.
  rewrite toDouble_exact by lia.
  destruct (Z.ltb_spec z 0) as [Hneg | _]; [lia|].
  unfold doubleToString.
  destruct (Z.leb_spec z (2 ^ 53)) as [_ | Hgt]; [reflexivity | lia].
Qed.

Lemma removeFirst_absent c s : ~ In c s -> removeFirst c s = s.
Proof.
  induction s as [| x s IH]; intros Hin; simpl; [reflexivity|].
  destruct (N.eqb_spec x c) as [-> | _].
  - exfalso. apply Hin. now left.
  - f_equal. apply IH. intros H. apply Hin. now right.
Qed.

Lemma split_absent c s : ~ In c s -> JS.split c s = [s].
Proof.
  induction s as [| x s IH]; intros Hin; simpl; [reflexivity|].
  destruct (N.eqb_spec x c) as [-> | _].
  - exfalso. apply Hin. now left.
  - rewrite IH by (intros H; apply Hin; now right). reflexivity.
Qed.

Lemma split_once c a b :
  ~ In c a -> ~ In c b -> JS.split c (a ++ c :: b) = [a; b].
Proof.
  intros Ha Hb. induction a as [| x a IH]; simpl.
  - rewrite N.eqb_refl. now rewrite split_absent.
  - destruct (N.eqb_spec x c) as [-> | _].
    + exfalso. apply Ha. now left.
    + rewrite IH by (intros H; apply Ha; now right). reflexivity.
Qed.

Lemma decimal_not_in c s : ~ isDecimal c -> Forall isDecimal s -> ~ In c s.
Proof.
  intros Hc Hs Hin. rewrite Forall_forall in Hs. apply Hc. now apply Hs.
Qed.

End Primitives.

Create HintDb decimal discriminated.

#[global] Hint Resolve digits_decimal digits_nonempty : decimal.
#[global] Hint Extern 1 (~ isDecimal _) => unfold isDecimal; lia : decimal.

(* ================================================================== *)
(** ** Stream consumer *)
(* ================================================================== *)

Section StreamConsumer.

Lemma appendItems_concat items acc :
  appendItems acc items = acc ++ List.concat (map itemContribution items).
Proof.
  unfold appendItems. revert acc.
  induction items as [| item items IH]; intros acc; simpl.
  - now rewrite app_nil_r.
  - rewrite IH. unfold itemContribution.
    destruct (JS.eqb (itemType item) (lit "text")).
    + now rewrite app_assoc.
    + reflexivity.
Qed.

Lemma consumeEvent_appends acc event :
  consumeEvent acc event = acc ++ contribution event.
Proof.
  unfold consumeEvent, contribution.
  destruct (JS.eqb (eventType event) (lit "text")).
  - destruct (content event); now rewrite ?app_nil_r.
  - destruct (JS.eqb (eventType event) (lit "message")).
    + destruct (content event); rewrite ?app_nil_r; try reflexivity.
      apply appendItems_concat.
    + now rewrite app_nil_r.
Qed.

Lemma fold_consumeEvent events acc :
  fold_left consumeEvent events acc = acc ++ List.concat (map contribution events).
Proof.
  revert acc. induction events as [| e events IH]; intros acc; simpl.
  - now rewrite app_nil_r.
  - rewrite IH, consumeEvent_appends. now rewrite app_assoc.
Qed.

(** C7. The accumulated text is the concatenation, in arrival order, of
    the textual contributions of the events: the string content of a
    [text] event, the string content of a [message] event or the [text]
    fields of its [text] items in sequence, and nothing for any other
    event. Each further event appends its contribution to the text built
    so far, so none is skipped or reordered. *)
Theorem consume_is_concatenation :
  (forall events, consume events = List.concat (map contribution events))
  /\ (forall events event,
        consume (events ++ [event]) = consume events ++ contribution event)
  /\ (forall events1 events2,
        consume (events1 ++ events2)
        = consume events1 ++ List.concat (map contribution events2)).
Proof.
  assert (H : forall events, consume events = List.concat (map contribution events)).
  { intros events. unfold consume. now rewrite fold_consumeEvent. }
  split; [exact H|]. split.
  - intros events event. rewrite !H, map_app, concat_app. simpl.
    now rewrite app_nil_r.
  - intros events1 events2. rewrite !H, map_app, concat_app. reflexivity.
Qed.

End StreamConsumer.

(* ================================================================== *)
(** ** Balanced-JSON extractor *)
(* ================================================================== *)

Section Extractor.

Lemma scanBraces_balanced b :
  balancedText b ->
  forall rest i n, 0 < n ->
    scanBraces (b ++ rest) i n = scanBraces rest (i + JS.length b) n.
Proof.
  induction 1 as [| c s Hc Hs IH | b s Hb IHb Hs IHs]; intros rest i n Hn.
  - unfold JS.length. simpl. f_equal. lia.
  - unfold isBrace in Hc. apply orb_false_iff in Hc as [Hl Hr].
    simpl. rewrite Hl, Hr. rewrite IH by lia.
    f_equal. unfold JS.length. simpl List.length. lia.
  - cbn [app scanBraces].
    change (N.eqb lbrace lbrace) with true.
    change (N.eqb lbrace rbrace) with false.
    cbv iota.
    rewrite <- app_assoc. rewrite IHb by lia.
    cbn [app scanBraces].
    change (N.eqb rbrace lbrace) with false.
    change (N.eqb rbrace rbrace) with true.
    cbv iota.
    destruct (n + 1 - 1 =? 0) eqn:E; [lia|].
    rewrite IHs by lia. f_equal; [|lia].
    unfold JS.length. cbn [List.length]. rewrite List.length_app.
    cbn [List.length]. lia.
Qed.

Lemma braces_differ c : N.eqb c lbrace && N.eqb c rbrace = false.
Proof.
  destruct (N.eqb_spec c lbrace) as [-> | _]; reflexivity.
Qed.

(** The counter of the loop is the depth of the text read so far; the loop
    stops the first time it comes back to zero. *)
Lemma scanBraces_never_zero rest :
  forall i n, 0 < n ->
    (forall k, (0 < k <= List.length rest)%nat -> n + depth (firstn k rest) <> 0) ->
    scanBraces rest i n = -1.
Proof.
  induction rest as [| c rest IH]; intros i n Hn Hk; [reflexivity|].
  cbn [scanBraces].
  assert (Hstep : forall k, (0 < k <= List.length rest)%nat ->
            n + ((if N.eqb c lbrace then 1 else 0)
                 - (if N.eqb c rbrace then 1 else 0)) + depth (firstn k rest) <> 0).
  { intros k Hlen. specialize (Hk (S k)). cbn [firstn depth List.length] in Hk. lia. }
  specialize (Hk 1%nat). cbn [firstn depth List.length] in Hk.
  pose proof (braces_differ c) as Hdiff.
  remember (N.eqb c lbrace) as opening eqn:Eo in *.
  remember (N.eqb c rbrace) as closing eqn:Ec in *.
  destruct opening, closing; try discriminate Hdiff.
  - apply IH; [lia|]. intros k Hlen. specialize (Hstep k Hlen). lia.
  - destruct (Z.eqb_spec (n - 1) 0) as [E | E]; [lia|].
    apply IH; [lia|]. intros k Hlen. specialize (Hstep k Hlen). lia.
  - apply IH; [lia|]. intros k Hlen. specialize (Hstep k Hlen). lia.
Qed.

Lemma scanBraces_first_zero rest tail :
  forall i n, 0 < n ->
    n + depth rest = 0 ->
    (forall k, (0 < k < List.length rest)%nat -> n + depth (firstn k rest) <> 0) ->
    scanBraces (rest ++ tail) i n = i + JS.length rest - 1.
Proof.
  induction rest as [| c rest IH]; intros i n Hn Hz Hk.
  - simpl in Hz. lia.
  - cbn [app scanBraces]. cbn [depth] in Hz.
    assert (Hstep : forall k, (0 < k < List.length rest)%nat ->
              n + ((if N.eqb c lbrace then 1 else 0)
                   - (if N.eqb c rbrace then 1 else 0)) + depth (firstn k rest) <> 0).
    { intros k Hlen. specialize (Hk (S k)). cbn [firstn depth List.length] in Hk. lia. }
    assert (Hlen : JS.length (c :: rest) = JS.length rest + 1)
      by (unfold JS.length; cbn [List.length]; lia).
    assert (Hone : rest <> [] ->
              n + ((if N.eqb c lbrace then 1 else 0)
                   - (if N.eqb c rbrace then 1 else 0)) <> 0).
    { intros Hne. specialize (Hk 1%nat). cbn [firstn depth List.length] in Hk.
      destruct rest; [congruence|]. cbn [List.length] in Hk. lia. }
    assert (Hlast : rest = [] -> N.eqb c rbrace = true /\ n = 1).
    { intros ->. simpl in Hz.
      destruct (N.eqb c lbrace), (N.eqb c rbrace); split; try reflexivity; lia. }
    pose proof (braces_differ c) as Hdiff.
    remember (N.eqb c lbrace) as opening eqn:Eo in *.
    remember (N.eqb c rbrace) as closing eqn:Ec in *.
    destruct opening, closing; try discriminate Hdiff.
    + destruct rest as [| c' rest']; [destruct (Hlast eq_refl); discriminate|].
      rewrite IH; [lia | lia | lia |].
      intros k Hk'. specialize (Hstep k Hk'). lia.
    + destruct (Z.eqb_spec (n - 1) 0) as [E | E].
      * destruct rest as [| c' rest'].
        -- unfold JS.length. simpl. lia.
        -- exfalso. apply Hone; [discriminate | lia].
      * destruct rest as [| c' rest']; [destruct (Hlast eq_refl); lia|].
        rewrite IH; [lia | lia | lia |].
        intros k Hk'. specialize (Hstep k Hk'). lia.
    + destruct rest as [| c' rest']; [destruct (Hlast eq_refl); discriminate|].
      rewrite IH; [lia | lia | lia |].
      intros k Hk'. specialize (Hstep k Hk'). lia.
Qed.

Lemma jsonStart_absent text : ~ In lbrace text -> jsonStart text = -1.
Proof. apply indexOfFrom_absent. Qed.

Lemma jsonStart_first pre rest :
  ~ In lbrace pre -> jsonStart (pre ++ lbrace :: rest) = JS.length pre.
Proof.
  intros H. unfold jsonStart, indexOf. now rewrite indexOfFrom_first.
Qed.

Lemma jsonEnd_first pre rest :
  ~ In lbrace pre ->
  jsonEnd (pre ++ lbrace :: rest) = scanBraces rest (JS.length pre + 1) 1.
Proof.
  intros H. unfold jsonEnd. rewrite jsonStart_first by assumption.
  unfold JS.length at 1. rewrite Nat2Z.id.
  rewrite skipn_app, skipn_all, Nat.sub_diag. reflexivity.
Qed.

(** If the loop, started after the first opening brace, stops on the last
    unit of [r], the candidate is that brace followed by [r]. *)
Lemma extractJson_of_scan pre r tail :
  ~ In lbrace pre ->
  scanBraces (r ++ tail) (JS.length pre + 1) 1 = JS.length pre + JS.length r ->
  extractJson (pre ++ (lbrace :: r) ++ tail) = Candidate (lbrace :: r).
Proof.
  intros Hpre Hscan. unfold extractJson.
  pose proof (jslength_nonneg pre). pose proof (jslength_nonneg r).
  cbn [app]. rewrite jsonStart_first, jsonEnd_first, Hscan by assumption.
  destruct (Z.eqb_spec (JS.length pre) (-1)); [lia|].
  destruct (Z.eqb_spec (JS.length pre + JS.length r) (-1)); [lia|].
  cbn [negb]. f_equal.
  replace (JS.length pre + JS.length r + 1)
    with (JS.length pre + JS.length (lbrace :: r))
    by (unfold JS.length; cbn [List.length]; lia).
  apply (substring_middle pre (lbrace :: r) tail).
Qed.

Lemma braceFree_no_lbrace s : braceFree s -> ~ In lbrace s.
Proof.
  intros Hs Hin. unfold braceFree in Hs. rewrite Forall_forall in Hs.
  specialize (Hs _ Hin). discriminate Hs.
Qed.

Lemma extractJson_balanced pre obj tail :
  ~ In lbrace pre -> balancedObject obj ->
  extractJson (pre ++ obj ++ tail) = Candidate obj.
Proof.
  intros Hpre (b & Hb & ->).
  apply (extractJson_of_scan pre (b ++ [rbrace]) tail Hpre).
  rewrite <- app_assoc. rewrite scanBraces_balanced by (assumption || lia).
  cbn [app scanBraces].
  change (N.eqb rbrace lbrace) with false.
  change (N.eqb rbrace rbrace) with true.
  cbv iota. change (1 - 1 =? 0) with true. cbv iota.
  rewrite jslength_app. change (JS.length [rbrace]) with 1. lia.
Qed.

Lemma extractJson_first_zero pre obj tail :
  ~ In lbrace pre -> hd_error obj = Some lbrace -> depth obj = 0 ->
  (forall k, (0 < k < List.length obj)%nat -> depth (firstn k obj) <> 0) ->
  extractJson (pre ++ obj ++ tail) = Candidate obj.
Proof.
  intros Hpre Hhd Hz Hk.
  destruct obj as [| c r]; [discriminate|]. injection Hhd as ->.
  apply extractJson_of_scan; [assumption|].
  cbn [depth] in Hz. change (N.eqb lbrace lbrace) with true in Hz.
  change (N.eqb lbrace rbrace) with false in Hz.
  rewrite scanBraces_first_zero; [lia | lia | lia |].
  intros k Hlen. specialize (Hk (S k)).
  cbn [firstn depth List.length] in Hk.
  change (N.eqb lbrace lbrace) with true in Hk.
  change (N.eqb lbrace rbrace) with false in Hk. lia.
Qed.

Lemma extractJson_incomplete pre rest :
  ~ In lbrace pre ->
  (forall k, (0 < k <= List.length (lbrace :: rest))%nat ->
     depth (firstn k (lbrace :: rest)) <> 0) ->
  extractJson (pre ++ lbrace :: rest) = IncompleteObject.
Proof.
  intros Hpre Hk. unfold extractJson.
  pose proof (jslength_nonneg pre).
  rewrite jsonStart_first, jsonEnd_first by assumption.
  destruct (Z.eqb_spec (JS.length pre) (-1)); [lia|]. cbn [negb].
  rewrite scanBraces_never_zero; [reflexivity | lia |].
  intros k Hlen. specialize (Hk (S k)).
  cbn [firstn depth List.length] in Hk.
  change (N.eqb lbrace lbrace) with true in Hk.
  change (N.eqb lbrace rbrace) with false in Hk. lia.
Qed.

(** C2. On a text made of brace-free text, a balanced-brace object and
    brace-free text, the extractor returns exactly the object, from the
    first opening brace to its matching closing brace; the text
    [noise{"a":{"b":1}}tail] yields [{"a":{"b":1}}]. More generally the
    candidate ends where the depth counter, started at the first opening
    brace, first returns to zero. Without any opening brace there is no
    candidate, and when the counter never returns to zero the object is
    reported incomplete. *)
Theorem extractJson_correct :
  (forall pre obj tail,
      braceFree pre -> balancedObject obj -> braceFree tail ->
      extractJson (pre ++ obj ++ tail) = Candidate obj)
  /\ extractJson (litq "noise{`a`:{`b`:1}}tail") = Candidate (litq "{`a`:{`b`:1}}")
  /\ (forall pre obj tail,
        ~ In lbrace pre -> hd_error obj = Some lbrace -> depth obj = 0 ->
        (forall k, (0 < k < List.length obj)%nat -> depth (firstn k obj) <> 0) ->
        extractJson (pre ++ obj ++ tail) = Candidate obj)
  /\ (forall text, ~ In lbrace text -> extractJson text = NoCandidate)
  /\ (forall pre rest,
        ~ In lbrace pre ->
        (forall k, (0 < k <= List.length (lbrace :: rest))%nat ->
           depth (firstn k (lbrace :: rest)) <> 0) ->
        extractJson (pre ++ lbrace :: rest) = IncompleteObject).
Proof.
  split; [| split; [| split; [| split]]].
  - intros pre obj tail Hpre Hobj _.
    apply extractJson_balanced; [now apply braceFree_no_lbrace | assumption].
  - reflexivity.
  - apply extractJson_first_zero.
  - intros text H. unfold extractJson. now rewrite jsonStart_absent.
  - apply extractJson_incomplete.
Qed.

End Extractor.

(* ================================================================== *)
(** ** Budget calculator *)
(* ================================================================== *)

Section BudgetCalculator.

Lemma totalBudgetOf_pieces low high :
  JS.split 45%N (digits low ++ lit "-" ++ digits high) = [digits low; digits high].
Proof.
  change (lit "-" ++ digits high) with (45%N :: digits high).
  apply split_once; apply decimal_not_in; auto with decimal.
Qed.

Lemma totalBudgetOf_band band low high duration :
  removeFirst 36%N band = digits low ++ lit "-" ++ digits high ->
  totalBudgetOf band duration
  = lit "$" ++ numberToString (mul (Int (Z.of_N low)) (Int duration))
      ++ lit "-" ++ numberToString (mul (Int (Z.of_N high)) (Int duration)).
Proof.
  intros Hband. unfold totalBudgetOf.
  rewrite Hband, (totalBudgetOf_pieces low high).
  cbn [nth_error toStringOpt]. now rewrite !parseInt_digits.
Qed.

Lemma product_exact (n : N) duration :
  0 < duration -> isSafe duration -> isSafe (Z.of_N n * duration) ->
  numberToString (mul (Int (Z.of_N n)) (Int duration)) = digits (n * Z.to_N duration).
Proof.
  intros Hd Hsafe Hprod.
  pose proof (safe_bound _ Hsafe) as Hbd.
  pose proof (safe_bound _ Hprod) as Hbp.
  assert (Hbn : Z.abs (Z.of_N n) <= 2 ^ 53) by nia.
  rewrite (mul_exact _ _ Hbn Hbd Hbp).
  rewrite numberToString_exact by nia.
  f_equal. lia.
Qed.

(** C6, amended. For a daily band made of two non-negative integers
    around a hyphen (behind the dollar sign of the mode table, or bare)
    and a positive whole number of days, where the number of days and
    both products are safe integers, the total is the dollar sign, the
    exact product of the lower bound and the days, a hyphen, and the
    exact product of the upper bound and the days; the band [$120-180]
    over 5 days gives [$600-900]. *)
Theorem totalBudget_exact :
  (forall (low high : N) (duration : Z),
      0 < duration -> isSafe duration ->
      isSafe (Z.of_N low * duration) -> isSafe (Z.of_N high * duration) ->
      totalBudgetOf (lit "$" ++ digits low ++ lit "-" ++ digits high) duration
      = lit "$" ++ digits (low * Z.to_N duration)
          ++ lit "-" ++ digits (high * Z.to_N duration)
      /\ totalBudgetOf (digits low ++ lit "-" ++ digits high) duration
         = lit "$" ++ digits (low * Z.to_N duration)
             ++ lit "-" ++ digits (high * Z.to_N duration))
  /\ totalBudgetOf (lit "$120-180") 5 = lit "$600-900".
Proof.
  split; [| vm_compute; reflexivity].
  intros low high duration Hd Hsafe Hlow Hhigh.
  split.
  - rewrite (totalBudgetOf_band _ low high) by reflexivity.
    now rewrite !product_exact.
  - rewrite (totalBudgetOf_band _ low high).
    + now rewrite !product_exact.
    + apply removeFirst_absent. intros Hin.
      change (lit "-" ++ digits high) with (45%N :: digits high) in Hin.
      apply in_app_or in Hin as [Hin | Hin].
      * revert Hin. apply decimal_not_in; auto with decimal.
      * destruct Hin as [Hin | Hin]; [discriminate Hin|].
        revert Hin. apply decimal_not_in; auto with decimal.
Qed.

End BudgetCalculator.

(* ================================================================== *)
(** ** Mode table *)
(* ================================================================== *)

Section ModeTable.

Lemma valid_plain req : validRequest req -> plainBudget req.
Proof.
  intros [[H | [H | H]] _]; unfold plainBudget, budgetKey; rewrite H; reflexivity.
Qed.

Lemma lookupMode_plain req : plainBudget req -> exists mode, lookupMode req = Own mode.
Proof.
  unfold plainBudget, lookupMode, getProperty. intros ->.
  destruct (find _ modeDetails) as [[k mode] |]; simpl; eauto.
Qed.

Lemma withMode_plain {A} req (k : ModeProfile -> A) :
  plainBudget req -> exists mode, lookupMode req = Own mode /\ withMode req k = Normal (k mode).
Proof.
  intros H. destruct (lookupMode_plain req H) as [mode Hm].
  exists mode. split; [assumption|]. unfold withMode. now rewrite Hm.
Qed.

(** One profile per value of the enumeration, each with its own
    flexibility label. *)
Lemma lookupMode_recognized req :
  (budget req = Some (lit "budget") ->
     lookupMode req = Own flowMode /\ flexibilityOf req = flexibilityLabel flowMode)
  /\ (budget req = Some (lit "moderate") ->
        lookupMode req = Own moderateMode
        /\ flexibilityOf req = flexibilityLabel moderateMode)
  /\ (budget req = Some (lit "luxury") ->
        lookupMode req = Own intenseMode
        /\ flexibilityOf req = flexibilityLabel intenseMode).
Proof.
  split; [| split]; intros Hb;
    unfold lookupMode, flexibilityOf, budgetIs, budgetKey; rewrite Hb;
    split; reflexivity.
Qed.

(** An absent budget, or one that is neither of the enumeration nor an
    inherited name, gets the entries of the moderate profile. *)
Lemma lookupMode_default req :
  plainBudget req ->
  budget req <> Some (lit "budget") -> budget req <> Some (lit "moderate") ->
  budget req <> Some (lit "luxury") ->
  lookupMode req = Own moderateMode.
Proof.
  unfold plainBudget, lookupMode, getProperty, budgetKey.
  intros Hplain Hb Hm Hl. rewrite Hplain.
  destruct (budget req) as [b |]; [| reflexivity].
  cbn [toStringOpt modeDetails find fst].
  destruct (JS.eqb (lit "budget") b) eqn:E1;
    [apply jseqb_eq in E1; subst; congruence|].
  destruct (JS.eqb (lit "moderate") b) eqn:E2;
    [apply jseqb_eq in E2; subst; congruence|].
  destruct (JS.eqb (lit "luxury") b) eqn:E3;
    [apply jseqb_eq in E3; subst; congruence|].
  reflexivity.
Qed.

(** C3, at a request whose budget is the unrecognized tier [premium] and
    an answer without braces: the lookup falls back on the moderate
    profile, whose flexibility label is [Medium], but the plan that is
    built carries the label [Low]. *)
Theorem unrecognized_tier_flexibility :
  lookupMode premiumRequest = Own moderateMode
  /\ flexibilityLabel moderateMode = lit "Medium"
  /\ exists plan pd,
       synthesize Json.parse premiumRequest (lit "A plan.") = Normal (Built pd)
       /\ plans pd = [plan]
       /\ budgetFields plan
          = (name moderateMode, emoji moderateMode, attractions moderateMode,
             pace moderateMode, daily moderateMode, lit "$360-540", lit "Low").
Proof.
  split; [reflexivity|]. split; [reflexivity|].
  eexists; eexists. split; [vm_compute; reflexivity|].
  split; reflexivity.
Qed.

(** A budget that names a member of [Object.prototype] finds that member
    instead of a profile, and the handler answers with the error shape. *)
Lemma inherited_tier_throws :
  lookupMode constructorRequest = Inherited (BuiltinFunction (lit "Object"))
  /\ generatePlans Json.parse constructorRequest
       [mkEvent (lit "text") (StringContent (lit "A plan."))]
     = ErrorResponse (lit "Failed to generate plans")
         (lit "Cannot read properties of undefined (reading 'replace')").
Proof. split; vm_compute; reflexivity. Qed.

End ModeTable.

(* ================================================================== *)
(** ** Fallback synthesizer *)
(* ================================================================== *)

Section Synthesizer.

Variable JSON_parse : jsstring -> completion JSON.

(** The three ways out of the extractor are the three branches of the
    outer [try]. *)
Lemma tryBody_candidate req task text jsonStr :
  extractJson text = Candidate jsonStr ->
  tryBody JSON_parse req task text = parseCandidate JSON_parse jsonStr.
Proof.
  unfold extractJson, tryBody.
  destruct (negb (jsonStart text =? -1)); [| discriminate].
  destruct (negb (jsonEnd text =? -1)); [| discriminate].
  now intros [= ->].
Qed.

Lemma tryBody_incomplete req task text :
  extractJson text = IncompleteObject ->
  tryBody JSON_parse req task text = Throw incompleteJson.
Proof.
  unfold extractJson, tryBody.
  destruct (negb (jsonStart text =? -1)); [| discriminate].
  destruct (negb (jsonEnd text =? -1)); [discriminate | reflexivity].
Qed.

Lemma tryBody_no_candidate req task text :
  extractJson text = NoCandidate ->
  tryBody JSON_parse req task text
  = if JS.length text >? 0 then built (planFromText req text)
    else built (planFromNothing req task).
Proof.
  unfold extractJson, tryBody.
  destruct (negb (jsonStart text =? -1)); [| reflexivity].
  destruct (negb (jsonEnd text =? -1)); discriminate.
Qed.

Lemma parseCandidate_wellFormed text jsonStr pv :
  extractJson text = Candidate jsonStr ->
  parseCandidate JSON_parse jsonStr = Normal pv -> wellFormedBy JSON_parse text pv.
Proof.
  intros Hcand. unfold parseCandidate, parsedBy, tryCatch, bind.
  destruct (JSON_parse jsonStr) as [v | e] eqn:E.
  - intros [= <-]. exists jsonStr. split; [assumption|]. now left.
  - destruct (search travelPlanRe jsonStr) as [m |] eqn:Em; [| discriminate].
    destruct (JSON_parse (lit "{" ++ whole m ++ lit "}")) as [v | e'] eqn:E';
      [| discriminate].
    intros [= <-]. exists jsonStr. split; [assumption|].
    right. exists e, m. now repeat split.
Qed.

Lemma built_wellFormed req text (k : ModeProfile -> PlanData) pv :
  (forall mode, exists plan, plans (k mode) = [plan]) ->
  built (withMode req k) = Normal pv -> wellFormedBy JSON_parse text pv.
Proof.
  intros Hk. unfold built, withMode, bind.
  destruct (lookupMode req) as [mode | m]; [| discriminate].
  intros [= <-]. apply Hk.
Qed.

Lemma tryBody_wellFormed req task text pv :
  tryBody JSON_parse req task text = Normal pv -> wellFormedBy JSON_parse text pv.
Proof.
  destruct (extractJson text) as [| | jsonStr] eqn:Ex.
  - rewrite (tryBody_no_candidate req task text Ex).
    destruct (JS.length text >? 0).
    + apply built_wellFormed. intros mode. eexists. reflexivity.
    + apply built_wellFormed. intros mode. eexists. reflexivity.
  - rewrite (tryBody_incomplete req task text Ex). discriminate.
  - rewrite (tryBody_candidate req task text jsonStr Ex).
    now apply parseCandidate_wellFormed.
Qed.

Lemma planFromRawResponse_plain req sel text e :
  plainBudget req ->
  exists mode,
    lookupMode req = Own mode
    /\ built (planFromRawResponse req sel text e)
       = Normal (Built
           (mkPlanData
              [ planOf req mode
                  (lit "AI-generated " ++ toLowerCase (name mode) ++ lit " plan for "
                     ++ extractedDestination (extractedInfoOf req sel text))
                  text ]
              (name mode) text
              (FallbackDebug (JS.length text) (message e)
                             (extractedInfoOf req sel text) true true))).
Proof.
  intros Hplain. unfold planFromRawResponse, fallbackPlan.
  destruct (withMode_plain req
              (fun mode =>
                 mkPlanData
                   [ planOf req mode
                       (lit "AI-generated " ++ toLowerCase (name mode)
                          ++ lit " plan for "
                          ++ extractedDestination (extractedInfoOf req sel text))
                       text ]
                   (name mode) text
                   (FallbackDebug (JS.length text) (message e)
                                  (extractedInfoOf req sel text) true true))
              Hplain) as (mode & Hm & Hw).
  exists mode. split; [assumption|]. now rewrite Hw.
Qed.

(** C1, amended. For every accumulated text and every valid request the
    cascade ends normally, with exactly one value of [planData], and the
    client is answered with it and never with the error shape. That value
    is either the object that [JSON.parse] returned for the candidate cut
    out of the text, or, that parse having failed, the object it returned
    for the [travel_plan] member of the candidate wrapped in braces, used
    as it is; or it is an object built by the handler with exactly one
    plan result. *)
Theorem synthesize_total req text :
  validRequest req ->
  exists pv,
    synthesize JSON_parse req text = Normal pv
    /\ wellFormedBy JSON_parse text pv
    /\ respond (synthesize JSON_parse req text) = PlanResponse pv.
Proof.
  intros Hvalid. apply valid_plain in Hvalid.
  unfold synthesize, tryCatch.
  destruct (tryBody JSON_parse req (taskOf req) text) as [pv | e] eqn:E.
  - exists pv. repeat split. now apply (tryBody_wellFormed req (taskOf req) text).
  - destruct (planFromRawResponse_plain req (selectedModeOf req) text e Hvalid)
      as (mode & _ & Hb).
    rewrite Hb. eexists. repeat split. simpl. eexists. reflexivity.
Qed.

(** C4. The tiers run in a fixed order and the first success is the
    result. When the candidate that the extractor cuts out of the text
    parses strictly, the parsed object alone is the value of [planData],
    whatever the request and whatever else the text holds, a
    [travel_plan] pattern included: no later tier runs. When the strict
    parse fails and the parse of the wrapped [travel_plan] member
    succeeds, that second object is the value, and the outer [catch] does
    not run. *)
Theorem strict_parse_wins :
  (forall req text jsonStr v,
      extractJson text = Candidate jsonStr ->
      JSON_parse jsonStr = Normal v ->
      synthesize JSON_parse req text = Normal (Parsed v))
  /\ (forall req text jsonStr e m v,
        extractJson text = Candidate jsonStr ->
        JSON_parse jsonStr = Throw e ->
        search travelPlanRe jsonStr = Some m ->
        JSON_parse (lit "{" ++ whole m ++ lit "}") = Normal v ->
        synthesize JSON_parse req text = Normal (Parsed v)).
Proof.
  split.
  - intros req text jsonStr v Hcand Hparse. unfold synthesize.
    rewrite (tryBody_candidate req (taskOf req) text jsonStr Hcand).
    unfold parseCandidate, parsedBy. now rewrite Hparse.
  - intros req text jsonStr e m v Hcand Hstrict Hmatch Hrelaxed. unfold synthesize.
    rewrite (tryBody_candidate req (taskOf req) text jsonStr Hcand).
    unfold parseCandidate, parsedBy. cbn [bind]. rewrite Hstrict. cbn [tryCatch bind].
    rewrite Hmatch. cbn beta iota zeta. now rewrite Hrelaxed.
Qed.

(** C5, amended. After a failed strict parse, a failure of the relaxed
    attempt is the original failure when the candidate holds no
    [travel_plan] member to parse, and it is the failure of the second
    parse when it holds one. *)
Theorem relaxed_failure jsonStr e0 e :
  JSON_parse jsonStr = Throw e0 ->
  parseCandidate JSON_parse jsonStr = Throw e ->
  match search travelPlanRe jsonStr with
  | None => e = e0
  | Some m => JSON_parse (lit "{" ++ whole m ++ lit "}") = Throw e
  end.
Proof.
  intros Hstrict. unfold parseCandidate, parsedBy, tryCatch, bind.
  rewrite Hstrict.
  destruct (search travelPlanRe jsonStr) as [m |].
  - destruct (JSON_parse (lit "{" ++ whole m ++ lit "}")); [discriminate|].
    now intros [= ->].
  - now intros [= ->].
Qed.

Lemma taskOf_tail req : exists head, taskOf req = head ++ taskTail.
Proof.
  unfold taskOf, taskTail. eexists.
  repeat rewrite app_assoc. reflexivity.
Qed.

Lemma taskOf_long req : (200 <= List.length (taskOf req))%nat.
Proof.
  destruct (taskOf_tail req) as [head ->]. rewrite List.length_app.
  assert (200 <= List.length taskTail)%nat
    by (apply Nat.leb_le; vm_compute; reflexivity).
  lia.
Qed.

(** C8. For a request for Tokyo, 3 days, on the luxury budget, and a
    sequence of events that leaves the accumulated text empty (the empty
    sequence to begin with), the client receives one plan named
    [Intense Adventure] with total budget [$540-750], whose detailed plan
    is the fixed sentence that says the answer was empty; the debug record
    holds the first 200 units of the task string followed by an
    ellipsis. *)
Theorem empty_response_plan req events :
  destination req = lit "Tokyo" -> duration req = 3 ->
  budget req = Some (lit "luxury") ->
  consume events = [] ->
  consume [] = []
  /\ generatePlans JSON_parse req events
     = PlanResponse (Built
         (mkPlanData
            [ mkPlan (lit "Intense Adventure") (emoji intenseMode) (lit "6-8")
                     (lit "Fast-paced") (lit "$180-250") (lit "$540-750")
                     (lit "Low")
                     (lit "Intense Adventure plan for your luxury budget.")
                     (lit "Sample plan for Tokyo - AI response was empty") ]
            (lit "Intense Adventure")
            (lit "No AI response received")
            (EmptyDebug 0 (firstn 200 (taskOf req) ++ lit "...")
                        (Some (lit "luxury")))))
  /\ List.length (firstn 200 (taskOf req)) = 200%nat.
Proof.
  intros Hdest Hdur Hbudget Hempty. split; [reflexivity|]. split.
  - unfold generatePlans, synthesize. rewrite Hempty.
    change (tryBody JSON_parse req (taskOf req) [])
      with (built (planFromNothing req (taskOf req))).
    unfold planFromNothing, withMode, lookupMode, budgetKey, planOf,
      flexibilityOf, budgetIs.
    rewrite Hbudget, Hdest, Hdur.
    change 200 with (Z.of_nat 200).
    rewrite (substring_prefix (taskOf req) 200 (taskOf_long req)).
    reflexivity.
  - apply firstn_length_le, taskOf_long.
Qed.

(** For a request whose budget names no inherited member, an incomplete
    object is recovered: the outer [catch] builds the plan, the debug
    record holds the message [Incomplete JSON in response], the detailed
    plan is the whole accumulated text, and the client is answered with
    the plan, not with the error shape. *)
Lemma incomplete_json_recovered req text :
  plainBudget req ->
  extractJson text = IncompleteObject ->
  exists mode plan info pd,
    lookupMode req = Own mode
    /\ pd = mkPlanData [plan] (name mode) text
              (FallbackDebug (JS.length text) (lit "Incomplete JSON in response")
                             info true true)
    /\ detailed_plan plan = text
    /\ synthesize JSON_parse req text = Normal (Built pd)
    /\ respond (synthesize JSON_parse req text) = PlanResponse (Built pd).
Proof.
  intros Hplain Hinc. unfold synthesize.
  rewrite (tryBody_incomplete req (taskOf req) text Hinc). cbn [tryCatch].
  destruct (planFromRawResponse_plain req (selectedModeOf req) text incompleteJson Hplain)
    as (mode & Hm & Hb).
  rewrite Hb. exists mode.
  exists (planOf req mode
            (lit "AI-generated " ++ toLowerCase (name mode) ++ lit " plan for "
               ++ extractedDestination
                    (extractedInfoOf req (selectedModeOf req) text))
            text).
  exists (extractedInfoOf req (selectedModeOf req) text).
  eexists. split; [assumption|]. split; [reflexivity|].
  split; [reflexivity|]. split; reflexivity.
Qed.

(** C9, at a request whose budget is the inherited name [constructor]
    and an answer that opens an object and never closes it: the
    extractor reports an incomplete object, the outer [catch] runs, its
    table lookup finds the function [Object] where it expects a profile,
    the read of the daily budget throws inside the [catch], and the
    client is answered with the error shape. The lookup is the one that
    misses in C3. *)
Theorem incomplete_json_inherited_budget :
  extractJson (lit "Plan: {") = IncompleteObject
  /\ lookupMode constructorRequest = Inherited (BuiltinFunction (lit "Object"))
  /\ synthesize JSON_parse constructorRequest (lit "Plan: {") = Throw modeTypeError
  /\ generatePlans JSON_parse constructorRequest
       [mkEvent (lit "text") (StringContent (lit "Plan: {"))]
     = ErrorResponse (lit "Failed to generate plans")
         (lit "Cannot read properties of undefined (reading 'replace')").
Proof.
  assert (Hinc : extractJson (lit "Plan: {") = IncompleteObject)
    by (vm_compute; reflexivity).
  assert (Hrun : synthesize JSON_parse constructorRequest (lit "Plan: {")
                 = Throw modeTypeError).
  { unfold synthesize.
    rewrite (tryBody_incomplete constructorRequest _ _ Hinc). reflexivity. }
  split; [exact Hinc|]. split; [reflexivity|]. split; [exact Hrun|].
  unfold generatePlans.
  change (consume [mkEvent (lit "text") (StringContent (lit "Plan: {"))])
    with (lit "Plan: {").
  now rewrite Hrun.
Qed.

End Synthesizer.

Section CatchAll.

Lemma lookupMode_budget req req' :
  budget req = budget req' -> lookupMode req = lookupMode req'.
Proof. unfold lookupMode, budgetKey. now intros ->. Qed.

Lemma flexibilityOf_budget req req' :
  budget req = budget req' -> flexibilityOf req = flexibilityOf req'.
Proof. unfold flexibilityOf, budgetIs. now intros ->. Qed.

(** C10. In the object built by the outer [catch], the fields recovered
    from the text reach only the description and the [extracted_info] of
    the debug record: with these two blanked, the outcome is the same
    whatever was recovered. The mode name, emoji, attractions, pace,
    daily budget, total budget and flexibility, and the selected mode,
    are the same for any two requests with the same budget and duration,
    whatever the texts, the errors and the recovered fields; the total
    budget is the one computed from the duration of the request. *)
Theorem recovered_fields_frame :
  (forall req text e info info',
      fmap withoutRecovered (fallbackPlan req text e info)
      = fmap withoutRecovered (fallbackPlan req text e info'))
  /\ (forall req req' sel sel' text text' e e',
        budget req = budget req' -> duration req = duration req' ->
        fmap (fun pd => (map budgetFields (plans pd), selected_mode pd))
             (planFromRawResponse req sel text e)
        = fmap (fun pd => (map budgetFields (plans pd), selected_mode pd))
               (planFromRawResponse req' sel' text' e'))
  /\ (forall req sel text e,
        fmap (fun pd => map total_budget (plans pd))
             (planFromRawResponse req sel text e)
        = withMode req (fun mode => [totalBudgetOf (daily mode) (duration req)])).
Proof.
  split; [| split].
  - intros req text e info info'. unfold fallbackPlan, withMode.
    destruct (lookupMode req); reflexivity.
  - intros req req' sel sel' text text' e e' Hb Hd.
    unfold planFromRawResponse, fallbackPlan, withMode.
    rewrite (lookupMode_budget req req' Hb).
    destruct (lookupMode req') as [mode | m]; [| reflexivity].
    cbn [fmap bind plans map selected_mode]. unfold budgetFields, planOf.
    cbn [mode_name mode_emoji daily_attractions plan_pace daily_budget
         total_budget flexibility].
    now rewrite Hd, (flexibilityOf_budget req req' Hb).
  - intros req sel text e.
    unfold planFromRawResponse, fallbackPlan, withMode.
    destruct (lookupMode req); reflexivity.
Qed.

End CatchAll.

(* ================================================================== *)
(** ** The claims on concrete inputs *)
(* ================================================================== *)

Section Instances.

(** C1 as stated fails: on the answer [{}] the strict parse succeeds and
    [planData] is the empty object, which contains no plan result. *)
Lemma parsed_object_without_plan :
  ~ (forall req text,
        validRequest req ->
        exists pv,
          synthesize Json.parse req text = Normal pv /\ containsPlanResult pv).
Proof.
  intros H.
  assert (Hvalid : validRequest tokyoRequest)
    by (split; [right; right; reflexivity | reflexivity]).
  destruct (H tokyoRequest (lit "{}") Hvalid) as (pv & Hpv & Hplan).
  assert (Hrun : synthesize Json.parse tokyoRequest (lit "{}")
                 = Normal (Parsed (JObject []))) by (vm_compute; reflexivity).
  rewrite Hrun in Hpv. injection Hpv as <-.
  destruct Hplan as (p & ps & Hget). discriminate Hget.
Qed.

Lemma synthesize_total_witness :
  validRequest tokyoRequest
  /\ exists pv,
       synthesize Json.parse tokyoRequest
         (litq "Here is the plan: {`mode`: `Flow`, oops}") = Normal pv
       /\ wellFormedBy Json.parse
            (litq "Here is the plan: {`mode`: `Flow`, oops}") pv
       /\ respond (synthesize Json.parse tokyoRequest
                     (litq "Here is the plan: {`mode`: `Flow`, oops}"))
          = PlanResponse pv.
Proof.
  assert (Hvalid : validRequest tokyoRequest)
    by (split; [right; right; reflexivity | reflexivity]).
  split; [exact Hvalid|].
  exact (synthesize_total Json.parse tokyoRequest
           (litq "Here is the plan: {`mode`: `Flow`, oops}") Hvalid).
Defined.

Lemma extractJson_correct_witness :
  (braceFree (lit "noise")
   /\ balancedObject (litq "{`a`:{`b`:1}}")
   /\ braceFree (lit "tail")
   /\ extractJson (lit "noise" ++ litq "{`a`:{`b`:1}}" ++ lit "tail")
      = Candidate (litq "{`a`:{`b`:1}}"))
  /\ (~ In lbrace (lit "a}b")
      /\ hd_error (lit "{{}x}") = Some lbrace
      /\ depth (lit "{{}x}") = 0
      /\ (forall k, (0 < k < List.length (lit "{{}x}"))%nat ->
            depth (firstn k (lit "{{}x}")) <> 0)
      /\ extractJson (lit "a}b" ++ lit "{{}x}" ++ lit "}{") = Candidate (lit "{{}x}"))
  /\ (~ In lbrace (lit "no object here")
      /\ extractJson (lit "no object here") = NoCandidate)
  /\ (~ In lbrace (lit "so: ")
      /\ (forall k, (0 < k <= List.length (lbrace :: lit "{}x"))%nat ->
            depth (firstn k (lbrace :: lit "{}x")) <> 0)
      /\ extractJson (lit "so: " ++ lbrace :: lit "{}x") = IncompleteObject).
Proof.
  assert (Hpre : braceFree (lit "noise")) by (repeat constructor).
  assert (Htail : braceFree (lit "tail")) by (repeat constructor).
  assert (Hobj : balancedObject (litq "{`a`:{`b`:1}}")).
  { exists (litq "`a`:{`b`:1}"). split; [| reflexivity].
    change (litq "`a`:{`b`:1}")
      with (litq "`a`:" ++ lbrace :: litq "`b`:1" ++ rbrace :: []).
    do 4 (apply balanced_unit; [reflexivity|]).
    apply (balanced_nest (litq "`b`:1") []); [| apply balanced_nil].
    do 5 (apply balanced_unit; [reflexivity|]). apply balanced_nil. }
  assert (Hnone1 : ~ In lbrace (lit "a}b")) by absent_from_literal.
  assert (Hprefix : forall k, (0 < k < List.length (lit "{{}x}"))%nat ->
                      depth (firstn k (lit "{{}x}")) <> 0).
  { prefix_depths 5. }
  assert (Hnone2 : ~ In lbrace (lit "no object here")) by absent_from_literal.
  assert (Hnone3 : ~ In lbrace (lit "so: ")) by absent_from_literal.
  assert (Hopen : forall k, (0 < k <= List.length (lbrace :: lit "{}x"))%nat ->
                    depth (firstn k (lbrace :: lit "{}x")) <> 0).
  { prefix_depths 5. }
  destruct extractJson_correct as (Hbal & _ & Hzero & Hno & Hinc).
  split; [| split; [| split]].
  - exact (conj Hpre (conj Hobj (conj Htail (Hbal _ _ _ Hpre Hobj Htail)))).
  - exact (conj Hnone1
             (conj eq_refl
                (conj eq_refl
                   (conj Hprefix
                      (Hzero (lit "a}b") (lit "{{}x}") (lit "}{")
                             Hnone1 eq_refl eq_refl Hprefix))))).
  - exact (conj Hnone2 (Hno _ Hnone2)).
  - exact (conj Hnone3 (conj Hopen (Hinc _ _ Hnone3 Hopen))).
Defined.

Lemma strict_parse_wins_witness :
  (extractJson (litq "Done. {`plans`: []} Also `travel_plan`: {`days`: 3}")
   = Candidate (litq "{`plans`: []}")
   /\ Json.parse (litq "{`plans`: []}") = Normal (JObject [(lit "plans", JArray [])])
   /\ synthesize Json.parse tokyoRequest
        (litq "Done. {`plans`: []} Also `travel_plan`: {`days`: 3}")
      = Normal (Parsed (JObject [(lit "plans", JArray [])])))
  /\ (extractJson (litq "{x `travel_plan`: {`days`: 3}}")
      = Candidate (litq "{x `travel_plan`: {`days`: 3}}")
      /\ Json.parse (litq "{x `travel_plan`: {`days`: 3}}")
         = Throw (mkError SyntaxError (lit "Unexpected token x in JSON at position 1"))
      /\ search travelPlanRe (litq "{x `travel_plan`: {`days`: 3}}")
         = Some (mkMatch (litq "`travel_plan`: {`days`: 3}") None)
      /\ Json.parse (lit "{" ++ litq "`travel_plan`: {`days`: 3}" ++ lit "}")
         = Normal (JObject [(lit "travel_plan",
                             JObject [(lit "days", JNumber (lit "3"))])])
      /\ synthesize Json.parse tokyoRequest (litq "{x `travel_plan`: {`days`: 3}}")
         = Normal (Parsed (JObject [(lit "travel_plan",
                                     JObject [(lit "days", JNumber (lit "3"))])]))).
Proof.
  assert (Hcand : extractJson (litq "Done. {`plans`: []} Also `travel_plan`: {`days`: 3}")
                  = Candidate (litq "{`plans`: []}")) by (vm_compute; reflexivity).
  assert (Hparse : Json.parse (litq "{`plans`: []}")
                   = Normal (JObject [(lit "plans", JArray [])]))
    by (vm_compute; reflexivity).
  assert (Hcand2 : extractJson (litq "{x `travel_plan`: {`days`: 3}}")
                   = Candidate (litq "{x `travel_plan`: {`days`: 3}}"))
    by (vm_compute; reflexivity).
  assert (Hstrict : Json.parse (litq "{x `travel_plan`: {`days`: 3}}")
                    = Throw (mkError SyntaxError
                               (lit "Unexpected token x in JSON at position 1")))
    by (vm_compute; reflexivity).
  assert (Hmatch : search travelPlanRe (litq "{x `travel_plan`: {`days`: 3}}")
                   = Some (mkMatch (litq "`travel_plan`: {`days`: 3}") None))
    by (vm_compute; reflexivity).
  assert (Hrelaxed : Json.parse (lit "{" ++ litq "`travel_plan`: {`days`: 3}" ++ lit "}")
                     = Normal (JObject [(lit "travel_plan",
                                         JObject [(lit "days", JNumber (lit "3"))])]))
    by (vm_compute; reflexivity).
  split.
  - exact (conj Hcand
             (conj Hparse
                (proj1 (strict_parse_wins Json.parse) tokyoRequest _ _ _ Hcand Hparse))).
  - exact (conj Hcand2
             (conj Hstrict
                (conj Hmatch
                   (conj Hrelaxed
                      (proj2 (strict_parse_wins Json.parse) tokyoRequest _ _ _ _ _
                             Hcand2 Hstrict Hmatch Hrelaxed))))).
Defined.

(** C5 as stated fails: the candidate below does not parse, the relaxed
    attempt finds a [travel_plan] member in it, and the failure that
    leaves the relaxed attempt is the one of the second parse, at offset
    17 of the wrapped member, not the original one at offset 1. *)
Lemma relaxed_failure_replaces_original :
  ~ (forall jsonStr e0 e,
        Json.parse jsonStr = Throw e0 ->
        parseCandidate Json.parse jsonStr = Throw e ->
        e = e0).
Proof.
  intros H.
  assert (Hstrict : Json.parse (litq "{x `travel_plan`: {oops}}")
                    = Throw (mkError SyntaxError
                               (lit "Unexpected token x in JSON at position 1")))
    by (vm_compute; reflexivity).
  assert (Hrelaxed : parseCandidate Json.parse (litq "{x `travel_plan`: {oops}}")
                     = Throw (mkError SyntaxError
                                (lit "Unexpected token o in JSON at position 17")))
    by (vm_compute; reflexivity).
  specialize (H _ _ _ Hstrict Hrelaxed). discriminate H.
Qed.

Lemma relaxed_failure_witness :
  Json.parse (lit "{oops}")
  = Throw (mkError SyntaxError (lit "Unexpected token o in JSON at position 1"))
  /\ parseCandidate Json.parse (lit "{oops}")
     = Throw (mkError SyntaxError (lit "Unexpected token o in JSON at position 1"))
  /\ match search travelPlanRe (lit "{oops}") with
     | None =>
         mkError SyntaxError (lit "Unexpected token o in JSON at position 1")
         = mkError SyntaxError (lit "Unexpected token o in JSON at position 1")
     | Some m =>
         Json.parse (lit "{" ++ whole m ++ lit "}")
         = Throw (mkError SyntaxError (lit "Unexpected token o in JSON at position 1"))
     end.
Proof.
  assert (Hstrict : Json.parse (lit "{oops}")
                    = Throw (mkError SyntaxError
                               (lit "Unexpected token o in JSON at position 1")))
    by (vm_compute; reflexivity).
  assert (Hrelaxed : parseCandidate Json.parse (lit "{oops}")
                     = Throw (mkError SyntaxError
                                (lit "Unexpected token o in JSON at position 1")))
    by (vm_compute; reflexivity).
  split; [exact Hstrict|]. split; [exact Hrelaxed|].
  exact (relaxed_failure Json.parse _ _ _ Hstrict Hrelaxed).
Defined.

(** C6 as stated fails: over [2 ^ 53] days the products of the band
    [$120-180] are doubles beyond the safe integers, which print with 16
    and 17 significant digits and zeros, not with their exact digits. *)
Lemma total_beyond_safe_integers :
  totalBudgetOf (lit "$" ++ digits 120 ++ lit "-" ++ digits 180) (2 ^ 53)
  = lit "$1080863910568919000-1621295865853378600"
  /\ lit "$" ++ digits (120 * Z.to_N (2 ^ 53)) ++ lit "-" ++ digits (180 * Z.to_N (2 ^ 53))
     = lit "$1080863910568919040-1621295865853378560"
  /\ ~ (forall (low high : N) (duration : Z),
          0 < duration ->
          totalBudgetOf (lit "$" ++ digits low ++ lit "-" ++ digits high) duration
          = lit "$" ++ digits (low * Z.to_N duration)
              ++ lit "-" ++ digits (high * Z.to_N duration)).
Proof.
  assert (Hcode : totalBudgetOf (lit "$" ++ digits 120 ++ lit "-" ++ digits 180) (2 ^ 53)
                  = lit "$1080863910568919000-1621295865853378600")
    by (vm_compute; reflexivity).
  assert (Hexact : lit "$" ++ digits (120 * Z.to_N (2 ^ 53))
                     ++ lit "-" ++ digits (180 * Z.to_N (2 ^ 53))
                   = lit "$1080863910568919040-1621295865853378560")
    by (vm_compute; reflexivity).
  split; [exact Hcode|]. split; [exact Hexact|].
  intros H. specialize (H 120%N 180%N (2 ^ 53) eq_refl).
  rewrite Hcode, Hexact in H. discriminate H.
Qed.

Lemma totalBudget_exact_witness :
  0 < 5
  /\ isSafe 5
  /\ isSafe (Z.of_N 120 * 5) /\ isSafe (Z.of_N 180 * 5)
  /\ totalBudgetOf (lit "$" ++ digits 120 ++ lit "-" ++ digits 180) 5
     = lit "$" ++ digits (120 * Z.to_N 5) ++ lit "-" ++ digits (180 * Z.to_N 5)
  /\ totalBudgetOf (digits 120 ++ lit "-" ++ digits 180) 5
     = lit "$" ++ digits (120 * Z.to_N 5) ++ lit "-" ++ digits (180 * Z.to_N 5).
Proof.
  assert (Hd : 0 < 5) by reflexivity.
  assert (Hsafe : isSafe 5) by (split; discriminate).
  assert (Hlow : isSafe (Z.of_N 120 * 5)) by (split; discriminate).
  assert (Hhigh : isSafe (Z.of_N 180 * 5)) by (split; discriminate).
  split; [exact Hd|]. split; [exact Hsafe|]. split; [exact Hlow|]. split; [exact Hhigh|].
  exact (proj1 totalBudget_exact 120%N 180%N 5 Hd Hsafe Hlow Hhigh).
Defined.

Lemma empty_response_plan_witness :
  destination tokyoRequest = lit "Tokyo"
  /\ duration tokyoRequest = 3
  /\ budget tokyoRequest = Some (lit "luxury")
  /\ consume [] = []
  /\ generatePlans Json.parse tokyoRequest []
     = PlanResponse (Built
         (mkPlanData
            [ mkPlan (lit "Intense Adventure") (emoji intenseMode) (lit "6-8")
                     (lit "Fast-paced") (lit "$180-250") (lit "$540-750")
                     (lit "Low")
                     (lit "Intense Adventure plan for your luxury budget.")
                     (lit "Sample plan for Tokyo - AI response was empty") ]
            (lit "Intense Adventure")
            (lit "No AI response received")
            (EmptyDebug 0 (firstn 200 (taskOf tokyoRequest) ++ lit "...")
                        (Some (lit "luxury"))))).
Proof.
  split; [reflexivity|]. split; [reflexivity|]. split; [reflexivity|].
  split; [reflexivity|].
  exact (proj1 (proj2 (empty_response_plan Json.parse tokyoRequest []
                         eq_refl eq_refl eq_refl eq_refl))).
Defined.

Lemma incomplete_json_recovered_witness :
  plainBudget tokyoRequest
  /\ extractJson (litq "Plan: {`days`: [{`n`: 1}") = IncompleteObject
  /\ exists mode plan info pd,
       lookupMode tokyoRequest = Own mode
       /\ pd = mkPlanData [plan] (name mode) (litq "Plan: {`days`: [{`n`: 1}")
                 (FallbackDebug (JS.length (litq "Plan: {`days`: [{`n`: 1}"))
                                (lit "Incomplete JSON in response") info true true)
       /\ detailed_plan plan = litq "Plan: {`days`: [{`n`: 1}"
       /\ synthesize Json.parse tokyoRequest (litq "Plan: {`days`: [{`n`: 1}")
          = Normal (Built pd)
       /\ respond (synthesize Json.parse tokyoRequest
                     (litq "Plan: {`days`: [{`n`: 1}"))
          = PlanResponse (Built pd).
Proof.
  assert (Hplain : plainBudget tokyoRequest) by reflexivity.
  assert (Hinc : extractJson (litq "Plan: {`days`: [{`n`: 1}") = IncompleteObject)
    by (vm_compute; reflexivity).
  split; [exact Hplain|]. split; [exact Hinc|].
  exact (incomplete_json_recovered Json.parse tokyoRequest _ Hplain Hinc).
Defined.

Lemma recovered_fields_frame_witness :
  budget tokyoRequest = budget kyotoRequest
  /\ duration tokyoRequest = duration kyotoRequest
  /\ fmap (fun pd => (map budgetFields (plans pd), selected_mode pd))
          (planFromRawResponse tokyoRequest (selectedModeOf tokyoRequest)
             (litq "{`duration`: `9 days`, `mode`: `Flow`") incompleteJson)
     = fmap (fun pd => (map budgetFields (plans pd), selected_mode pd))
            (planFromRawResponse kyotoRequest (selectedModeOf kyotoRequest)
               (litq "{`destination`: `Nara`, oops}")
               (mkError SyntaxError (lit "Unexpected token o in JSON at position 24"))).
Proof.
  split; [reflexivity|]. split; [reflexivity|].
  exact (proj1 (proj2 recovered_fields_frame)
           tokyoRequest kyotoRequest _ _ _ _ _ _ eq_refl eq_refl).
Defined.

(** The malformed answer of the specification: the strict parse fails,
    there is no [travel_plan] member, and the outer [catch] recovers the
    mode [Flow] from the text. *)
Example malformed_json_recovery :
  synthesize Json.parse tokyoRequest
    (litq "Here is the plan: {`mode`: `Flow`, oops}")
  = Normal (Built
      (mkPlanData
         [ planOf tokyoRequest intenseMode
             (lit "AI-generated intense adventure plan for Tokyo")
             (litq "Here is the plan: {`mode`: `Flow`, oops}") ]
         (lit "Intense Adventure")
         (litq "Here is the plan: {`mode`: `Flow`, oops}")
         (FallbackDebug 40 (lit "Unexpected token o in JSON at position 17")
            (mkExtracted (lit "Tokyo") (inr 3) (Own (lit "Flow"))) true true))).
Proof. vm_compute. reflexivity. Qed.

(** A duration recovered from the text is recorded, and the total budget
    is still the one of the 3 days of the request. *)
Example recovered_duration_is_recorded_only :
  fmap (fun pd => (map total_budget (plans pd), debug_info pd))
       (planFromRawResponse tokyoRequest (selectedModeOf tokyoRequest)
          (litq "{`duration`: `9 days`, `destination`: `Nara`")
          incompleteJson)
  = Normal ([lit "$540-750"],
            FallbackDebug 44 (lit "Incomplete JSON in response")
              (mkExtracted (lit "Nara") (inl (lit "9 days"))
                           (Own (lit "Intense Adventure")))
              true true).
Proof. vm_compute. reflexivity. Qed.

(** The moderate entries that an unrecognized or absent budget gets. *)
Example default_tier_entries :
  lookupMode premiumRequest
  = Own (mkMode (lit "Moderate Explorer") [9878; 65039]%N (lit "4-5")
                (lit "Balanced") (lit "$120-180"))
  /\ lookupMode (mkRequest (lit "Tokyo") 3 2 None [] (lit "walking") None)
     = Own moderateMode.
Proof. split; reflexivity. Qed.

(** The name [__proto__] is no member of [Object.prototype] in the
    runtime of the handler: as a budget it is unrecognized and gets the
    moderate entries like any other. *)
Example proto_budget_is_unrecognized :
  lookupMode (mkRequest (lit "Tokyo") 3 2 (Some (lit "__proto__")) []
                        (lit "walking") None)
  = Own moderateMode.
Proof. reflexivity. Qed.

(** A repeated member name keeps its first place and its last value. *)
Example repeated_member_takes_last_value :
  Json.parse (litq "{`a`: 1, `b`: 2, `a`: 3}")
  = Normal (JObject [(lit "a", JNumber (lit "3")); (lit "b", JNumber (lit "2"))]).
Proof. vm_compute. reflexivity. Qed.

(** Products beyond the safe integers are rounded to 53 binary digits and
    printed in the shortest form that reads back as the same double, with
    an exponent from 22 digits on. *)
Example large_products_round :
  numberToString (mul (Int 180) (Int (2 ^ 53))) = lit "1621295865853378600"
  /\ numberToString (mul (Int 180) (Int (2 ^ 53 + 1))) = lit "1621295865853378600"
  /\ numberToString (mul (Int 250) (Int (10 ^ 21))) = lit "2.5e+23"
  /\ numberToString (mul (Int 120) (Int (- 7))) = lit "-840"
  /\ numberToString (mul (Int 120) (Int (10 ^ 400))) = lit "Infinity"
  /\ numberToString (mul (Int 0) (Int (10 ^ 400))) = lit "NaN".
Proof. repeat split; vm_compute; reflexivity. Qed.

End Instances.

(* ================================================================== *)
(** ** What the patterns can match *)
(* ================================================================== *)

Section Patterns.

Lemma star_sound {R} p s (k : jsstring -> option R) res :
  star p s k = Some res ->
  exists w s', s = w ++ s' /\ Forall (fun c => p c = true) w /\ k s' = Some res.
Proof.
  induction s as [| c s IH]; simpl; intros H.
  - exists [], []. auto.
  - destruct (p c) eqn:Hp.
    + destruct (star p s k) as [r |] eqn:Hs.
      * destruct (IH H) as (w & s' & -> & Hw & Hk).
        exists (c :: w), s'. auto.
      * exists [], (c :: s). auto.
    + exists [], (c :: s). auto.
Qed.

Lemma firstn_consumed (w s' : jsstring) :
  firstn (List.length (w ++ s') - List.length s') (w ++ s') = w.
Proof.
  rewrite List.length_app, Nat.add_sub.
  rewrite firstn_app, Nat.sub_diag, firstn_all. simpl. apply app_nil_r.
Qed.

(** Whatever the matcher finds is a text that the pattern accepts, cut
    from the front of the input. *)
Lemma run_sound {R} r :
  forall s cap (k : jsstring -> option jsstring -> option R) res,
    run r s cap k = Some res ->
    exists w s' cap', s = w ++ s' /\ accepts r w cap cap' /\ k s' cap' = Some res.
Proof.
  induction r as [| p | p | p | a IHa b IHb | a IHa]; intros s cap k res H; simpl in H.
  - exists [], s, cap. repeat split; [constructor | assumption].
  - destruct s as [| c s]; [discriminate|].
    destruct (p c) eqn:Hp; [| discriminate].
    exists [c], s, cap. repeat split; [now constructor | assumption].
  - apply star_sound in H as (w & s' & -> & Hw & Hk).
    exists w, s', cap. repeat split; [now constructor | assumption].
  - destruct s as [| c s]; [discriminate|].
    destruct (p c) eqn:Hp; [| discriminate].
    apply star_sound in H as (w & s' & -> & Hw & Hk).
    exists (c :: w), s', cap. repeat split; [| assumption].
    constructor; [discriminate | now constructor].
  - apply IHa in H as (w1 & s1 & cap1 & -> & Ha & H).
    apply IHb in H as (w2 & s2 & cap2 & -> & Hb & H).
    exists (w1 ++ w2), s2, cap2. rewrite <- app_assoc.
    repeat split; [econstructor; eassumption | assumption].
  - apply IHa in H as (w & s' & cap1 & -> & Ha & H).
    rewrite firstn_consumed in H.
    exists w, s', (Some w). repeat split; [econstructor; eassumption | assumption].
Qed.

Lemma matchAt_sound r s m :
  matchAt r s = Some m ->
  exists s', s = whole m ++ s' /\ accepts r (whole m) None (group1 m).
Proof.
  unfold matchAt. intros H.
  apply run_sound in H as (w & s' & cap' & -> & Ha & H).
  rewrite firstn_consumed in H. injection H as <-. now exists s'.
Qed.

Lemma search_sound r s m :
  search r s = Some m ->
  exists pre post,
    s = pre ++ whole m ++ post /\ accepts r (whole m) None (group1 m).
Proof.
  induction s as [| c s IH]; simpl; intros H.
  - destruct (matchAt r []) eqn:E; [| discriminate]. injection H as ->.
    apply matchAt_sound in E as (s' & E & Ha). now exists [], s'.
  - destruct (matchAt r (c :: s)) eqn:E.
    + injection H as ->. apply matchAt_sound in E as (s' & E & Ha).
      now exists [], s'.
    + destruct (IH H) as (pre & post & -> & Ha). now exists (c :: pre), post.
Qed.

Lemma accepts_seq_inv a b w cap0 cap2 :
  accepts (Seq a b) w cap0 cap2 ->
  exists w1 w2 cap1,
    w = w1 ++ w2 /\ accepts a w1 cap0 cap1 /\ accepts b w2 cap1 cap2.
Proof. inversion 1; subst. eauto 6. Qed.

Lemma accepts_chr c w cap cap' :
  accepts (chr c) w cap cap' -> w = [c] /\ cap' = cap.
Proof.
  unfold chr. inversion 1 as [| p x ? Hx | | | |]; subst.
  apply N.eqb_eq in Hx. subst. auto.
Qed.

Lemma accepts_word l w cap cap' :
  accepts (word l) w cap cap' -> w = l /\ cap' = cap.
Proof.
  unfold word. revert w cap. induction l as [| c l IH]; intros w cap H; simpl in H.
  - inversion H; subst. auto.
  - apply accepts_seq_inv in H as (w1 & w2 & cap1 & -> & H1 & H2).
    apply accepts_chr in H1 as [-> ->].
    destruct (IH _ _ H2) as [-> ->]. auto.
Qed.

Lemma accepts_wordI l w cap cap' :
  accepts (wordI l) w cap cap' -> Forall2 sameLetter w l /\ cap' = cap.
Proof.
  unfold wordI. revert w cap. induction l as [| c l IH]; intros w cap H; simpl in H.
  - inversion H; subst. auto.
  - apply accepts_seq_inv in H as (w1 & w2 & cap1 & -> & H1 & H2).
    unfold chrI in H1. inversion H1 as [| p x ? Hx | | | |]; subst.
    destruct (IH _ _ H2) as [Hl ->]. split; [| reflexivity].
    simpl. constructor; [| assumption].
    apply orb_true_iff in Hx as [Hx | Hx]; apply N.eqb_eq in Hx;
      [now left | now right].
Qed.

(** A match of a field pattern: the label in any case, a run of quotes,
    colons and white space, and the captured run of field units. *)
Lemma accepts_fieldRe label w cap :
  accepts (fieldRe label) w None cap ->
  exists l glue g,
    w = l ++ glue ++ g
    /\ Forall2 sameLetter l (lit label)
    /\ Forall (fun c => labelGlue c = true) glue
    /\ g <> [] /\ Forall (fun c => fieldUnit c = true) g
    /\ cap = Some g.
Proof.
  unfold fieldRe. cbn [seqOf]. intros H.
  apply accepts_seq_inv in H as (l & w1 & cap1 & -> & Hl & H).
  apply accepts_wordI in Hl as [Hl ->].
  apply accepts_seq_inv in H as (glue & w2 & cap2 & -> & Hg & H).
  inversion Hg as [| | p x ? Hglue | | |]; subst.
  apply accepts_seq_inv in H as (g & w3 & cap3 & -> & Hgroup & H).
  inversion H; subst.
  inversion Hgroup as [| | | | | a x c0 c1 Hplus]; subst.
  inversion Hplus as [| | | p x ? Hne Hfield | |]; subst.
  exists l, glue, g. rewrite app_nil_r. repeat split; assumption.
Qed.

(** A match of the [travel_plan] pattern. *)
Lemma accepts_travelPlanRe w cap cap' :
  accepts travelPlanRe w cap cap' ->
  exists ws1 ws2 body,
    w = litq "`travel_plan`" ++ ws1 ++ [58%N] ++ ws2 ++ [lbrace] ++ body ++ [rbrace]
    /\ Forall (fun c => isWhiteSpace c = true) ws1
    /\ Forall (fun c => isWhiteSpace c = true) ws2
    /\ ~ In rbrace body.
Proof.
  unfold travelPlanRe. cbn [seqOf]. intros H.
  apply accepts_seq_inv in H as (key & w1 & c1 & -> & Hkey & H).
  apply accepts_word in Hkey as [-> ->].
  apply accepts_seq_inv in H as (ws1 & w2 & c2 & -> & Hws1 & H).
  inversion Hws1 as [| | p x ? Hw1 | | |]; subst.
  apply accepts_seq_inv in H as (colon & w3 & c3 & -> & Hcolon & H).
  apply accepts_chr in Hcolon as [-> ->].
  apply accepts_seq_inv in H as (ws2 & w4 & c4 & -> & Hws2 & H).
  inversion Hws2 as [| | p x ? Hw2 | | |]; subst.
  apply accepts_seq_inv in H as (open & w5 & c5 & -> & Hopen & H).
  apply accepts_chr in Hopen as [-> ->].
  apply accepts_seq_inv in H as (body & w6 & c6 & -> & Hbody & H).
  inversion Hbody as [| | p x ? Hb | | |]; subst.
  apply accepts_seq_inv in H as (close & w7 & c7 & -> & Hclose & H).
  apply accepts_chr in Hclose as [-> ->].
  inversion H; subst.
  exists ws1, ws2, body. rewrite app_nil_r. repeat split; try assumption.
  intros Hin. rewrite Forall_forall in Hb. specialize (Hb _ Hin).
  now rewrite N.eqb_refl in Hb.
Qed.

End Patterns.

(* ================================================================== *)
(** ** Fields recovered from the raw response, and the relaxed match *)
(* ================================================================== *)

Section Recovery.

Lemma trimStart_suffix s :
  exists ws, s = ws ++ trimStart s
             /\ (forall c, hd_error (trimStart s) = Some c -> isWhiteSpace c = false).
Proof.
  induction s as [| c s (ws & E & Hhd)]; simpl.
  - exists []. split; [reflexivity | discriminate].
  - destruct (isWhiteSpace c) eqn:Hc.
    + exists (c :: ws). split; [simpl; now f_equal | assumption].
    + exists []. split; [reflexivity|]. simpl. now intros ? [= <-].
Qed.

Lemma trim_inside s :
  exists before after,
    s = before ++ trim s ++ after
    /\ (forall c, hd_error (trim s) = Some c -> isWhiteSpace c = false)
    /\ (forall c, hd_error (rev (trim s)) = Some c -> isWhiteSpace c = false).
Proof.
  unfold trim, trimEnd.
  destruct (trimStart_suffix s) as (before & Es & Hhd).
  destruct (trimStart_suffix (rev (trimStart s))) as (after & Er & Hlast).
  assert (Et : trimStart s
               = rev (trimStart (rev (trimStart s))) ++ rev after).
  { rewrite <- rev_app_distr, <- Er. now rewrite rev_involutive. }
  exists before, (rev after). repeat split.
  - rewrite <- Et. exact Es.
  - intros c Hc. apply Hhd. rewrite Et.
    destruct (rev (trimStart (rev (trimStart s)))); [discriminate | exact Hc].
  - rewrite rev_involutive. exact Hlast.
Qed.

Lemma field_not_quote c : fieldUnit c = true -> oneOf [squote; dquote] c = false.
Proof.
  unfold fieldUnit, oneOf. cbn [existsb]. intros Hc.
  destruct (N.eqb c squote) eqn:Es;
    [rewrite ?orb_true_r in Hc; discriminate Hc|].
  destruct (N.eqb c dquote) eqn:Ed;
    [rewrite ?orb_true_r in Hc; discriminate Hc|].
  reflexivity.
Qed.

Lemma stripQuotes_field s :
  Forall (fun c => fieldUnit c = true) s -> stripQuotes s = s.
Proof.
  unfold stripQuotes.
  induction 1 as [| c s Hc Hs IH]; [reflexivity|].
  cbn [filter]. rewrite (field_not_quote c Hc). cbn [negb]. now f_equal.
Qed.

(** X3. When a field is recovered from the raw response, the text holds
    the label (in any letter case), then a run of quotes, colons and
    white space, then a non-empty run of units other than the comma, the
    newline, the quotes and the closing brace; the recovered value is
    that run with the white space at its two ends removed. It holds none
    of those separators and neither begins nor ends with white space. *)
Theorem recovered_field_shape label text v :
  recovered label text = Some v ->
  (exists pre l glue g post,
      text = pre ++ l ++ glue ++ g ++ post
      /\ Forall2 sameLetter l (lit label)
      /\ Forall (fun c => labelGlue c = true) glue
      /\ g <> [] /\ Forall (fun c => fieldUnit c = true) g
      /\ v = trim g)
  /\ Forall (fun c => fieldUnit c = true) v
  /\ (forall c, hd_error v = Some c -> isWhiteSpace c = false)
  /\ (forall c, hd_error (rev v) = Some c -> isWhiteSpace c = false).
Proof.
  unfold recovered. destruct (search (fieldRe label) text) as [m |] eqn:E;
    [| discriminate].
  intros [= <-].
  apply search_sound in E as (pre & post & Etext & Ha).
  apply accepts_fieldRe in Ha as (l & glue & g & Ew & Hl & Hglue & Hne & Hg & Hcap).
  rewrite Hcap. cbn [toStringOpt].
  destruct (trim_inside g) as (before & after & Eg & Hhd & Hlast).
  assert (Htrim : Forall (fun c => fieldUnit c = true) (trim g)).
  { rewrite Eg in Hg. apply Forall_app in Hg as [_ Hg].
    now apply Forall_app in Hg as [Hg _]. }
  rewrite (stripQuotes_field _ Htrim).
  split; [| now repeat split].
  exists pre, l, glue, g, post. rewrite Etext, Ew, <- !app_assoc.
  repeat split; assumption.
Qed.

Lemma chrI_self c : N.eqb c (lowerUnit c) || N.eqb c (upperUnit c) = true.
Proof.
  unfold lowerUnit, upperUnit.
  destruct ((65 <=? c) && (c <=? 90))%N eqn:Hup.
  - apply andb_true_iff in Hup as [H1 H2].
    apply N.leb_le in H1. apply N.leb_le in H2.
    destruct ((97 <=? c) && (c <=? 122))%N eqn:Hlo.
    + apply andb_true_iff in Hlo as [H3 _]. apply N.leb_le in H3. lia.
    + rewrite N.eqb_refl. apply orb_true_r.
  - now rewrite N.eqb_refl.
Qed.

Lemma run_wordI_self {R} l rest cap (k : jsstring -> option jsstring -> option R) :
  run (wordI l) (l ++ rest) cap k = k rest cap.
Proof.
  unfold wordI. induction l as [| c l IH]; simpl; [reflexivity|].
  now rewrite chrI_self.
Qed.

(** A label followed by a blank and a comma recovers the empty text. *)
Lemma recovered_empty_after_label label :
  recovered label (lit label ++ lit " ,") = Some [].
Proof.
  unfold recovered.
  assert (E : exists w,
             search (fieldRe label) (lit label ++ lit " ,")
             = Some (mkMatch w (Some (lit " ")))).
  { assert (Em : exists w,
               matchAt (fieldRe label) (lit label ++ lit " ,")
               = Some (mkMatch w (Some (lit " ")))).
    { unfold matchAt, fieldRe. cbn [seqOf run].
      rewrite run_wordI_self. eexists. reflexivity. }
    destruct Em as [w Em]. exists w.
    destruct (lit label ++ lit " ,"); simpl; now rewrite Em. }
  destruct E as [w ->]. reflexivity.
Qed.

Lemma depth_app a b : depth (a ++ b) = depth a + depth b.
Proof. induction a as [| c a IH]; simpl; [reflexivity | lia]. Qed.

Lemma depth_space ws :
  Forall (fun c => isWhiteSpace c = true) ws -> depth ws = 0.
Proof.
  induction 1 as [| c ws Hc Hws IH]; simpl; [reflexivity|].
  destruct (N.eqb_spec c lbrace) as [-> | _]; [discriminate Hc|].
  destruct (N.eqb_spec c rbrace) as [-> | _]; [discriminate Hc|]. lia.
Qed.

Lemma depth_open_only b :
  ~ In rbrace b -> 0 <= depth b /\ (depth b = 0 <-> ~ In lbrace b).
Proof.
  induction b as [| c b IH]; intros Hno; simpl.
  - split; [lia|]. split; auto.
  - destruct IH as [Hge Hiff]; [intros H; apply Hno; now right|].
    destruct (N.eqb_spec c rbrace) as [-> | Hr]; [exfalso; apply Hno; now left|].
    destruct (N.eqb_spec c lbrace) as [-> | Hl].
    + split; [lia|]. split; [lia|]. intros H. exfalso. apply H. now left.
    + split; [lia|]. split.
      * intros Hz [Hc | Hin]; [congruence|]. apply Hiff; [lia | assumption].
      * intros Hnl. apply Hiff. intros Hin. apply Hnl. now right.
Qed.

(** X5. A match of the relaxed pattern is a piece of the candidate made of
    the quoted key [travel_plan], white space, a colon, white space, an
    opening brace, a body without any closing brace, and one closing
    brace: the match stops at the first closing brace after the key.
    Hence the wrapped text handed to the second parse has balanced braces
    exactly when the body holds no opening brace; a member with a nested
    object is cut inside it. *)
Theorem relaxed_match_shape jsonStr m :
  search travelPlanRe jsonStr = Some m ->
  exists pre post ws1 ws2 body,
    jsonStr = pre ++ whole m ++ post
    /\ whole m = litq "`travel_plan`" ++ ws1 ++ [58%N] ++ ws2
                   ++ [lbrace] ++ body ++ [rbrace]
    /\ Forall (fun c => isWhiteSpace c = true) ws1
    /\ Forall (fun c => isWhiteSpace c = true) ws2
    /\ ~ In rbrace body
    /\ 0 <= depth (lit "{" ++ whole m ++ lit "}")
    /\ (depth (lit "{" ++ whole m ++ lit "}") = 0 <-> ~ In lbrace body).
Proof.
  intros H. apply search_sound in H as (pre & post & E & Ha).
  apply accepts_travelPlanRe in Ha as (ws1 & ws2 & body & Ew & H1 & H2 & Hb).
  exists pre, post, ws1, ws2, body.
  assert (Hd : depth (lit "{" ++ whole m ++ lit "}") = depth body).
  { rewrite Ew. rewrite !depth_app.
    rewrite (depth_space ws1 H1), (depth_space ws2 H2).
    change (depth (lit "{")) with 1. change (depth (lit "}")) with (-1).
    change (depth (litq "`travel_plan`")) with 0.
    change (depth [58%N]) with 0. change (depth [lbrace]) with 1.
    change (depth [rbrace]) with (-1). lia. }
  destruct (depth_open_only body Hb) as [Hge Hiff].
  rewrite Hd. repeat split; try assumption; apply Hiff.
Qed.

End Recovery.

(* ================================================================== *)
(** ** The extractor, read backwards *)
(* ================================================================== *)

Section ExtractorConverse.

Lemma indexOfFrom_found c s :
  forall i j, 0 <= i -> indexOfFrom c s i = j -> j <> -1 ->
    exists pre rest, s = pre ++ c :: rest /\ ~ In c pre /\ j = i + JS.length pre.
Proof.
  induction s as [| x s IH]; intros i j Hi H Hj; simpl in H; [congruence|].
  destruct (N.eqb_spec x c) as [-> | Hx].
  - exists [], s. repeat split; [intros [] | unfold JS.length; simpl; lia].
  - destruct (IH (i + 1) j ltac:(lia) H Hj) as (pre & rest & -> & Hpre & ->).
    exists (x :: pre), rest. repeat split.
    + intros [E | Hin]; [congruence | now apply Hpre].
    + unfold JS.length. simpl List.length. lia.
Qed.

Lemma indexOfFrom_present c s i : In c s -> 0 <= i -> indexOfFrom c s i <> -1.
Proof.
  revert i. induction s as [| x s IH]; intros i Hin Hi; [destruct Hin|].
  simpl. destruct (N.eqb_spec x c) as [-> | Hx]; [lia|].
  destruct Hin as [E | Hin]; [congruence|]. apply IH; [assumption | lia].
Qed.

Lemma scanBraces_found rest :
  forall i n j, 0 < n -> 0 <= i -> scanBraces rest i n = j -> j <> -1 ->
    exists w tail,
      rest = w ++ tail /\ j = i + JS.length w - 1
      /\ n + depth w = 0
      /\ (forall k, (0 < k < List.length w)%nat -> 0 < n + depth (firstn k w))
      /\ hd_error (rev w) = Some rbrace.
Proof.
  induction rest as [| c rest IH]; intros i n j Hn Hi H Hj; [simpl in H; congruence|].
  cbn [scanBraces] in H.
  pose proof (braces_differ c) as Hdiff.
  assert (Hcons : forall w, JS.length (c :: w) = JS.length w + 1)
    by (intros w; unfold JS.length; cbn [List.length]; lia).
  assert (Hlast : forall w, hd_error (rev w) = Some rbrace ->
                    hd_error (rev (c :: w)) = Some rbrace).
  { intros w Hw. simpl. destruct (rev w); [discriminate | exact Hw]. }
  destruct (N.eqb c lbrace) eqn:Eo; destruct (N.eqb c rbrace) eqn:Ec;
    try discriminate Hdiff.
  - destruct (IH (i + 1) (n + 1) j ltac:(lia) ltac:(lia) H Hj)
      as (w & tail & -> & -> & Hz & Hk & Hend).
    exists (c :: w), tail. rewrite Hcons. cbn [depth]. rewrite Eo, Ec.
    repeat split; [lia | lia | | now apply Hlast].
    intros [| k] Hlen; [lia|]. cbn [firstn depth]. rewrite Eo, Ec.
    destruct k as [| k]; [simpl; lia|].
    cbn [List.length] in Hlen. specialize (Hk (S k) ltac:(lia)). lia.
  - destruct (Z.eqb_spec (n - 1) 0) as [En | En].
    + subst j. exists [c], rest. cbn [depth]. rewrite Eo, Ec.
      repeat split; [unfold JS.length; simpl; lia | simpl; lia | |].
      * intros k Hlen. simpl in Hlen. lia.
      * simpl. apply N.eqb_eq in Ec. now subst.
    + destruct (IH (i + 1) (n - 1) j ltac:(lia) ltac:(lia) H Hj)
        as (w & tail & -> & -> & Hz & Hk & Hend).
      exists (c :: w), tail. rewrite Hcons. cbn [depth]. rewrite Eo, Ec.
      repeat split; [lia | lia | | now apply Hlast].
      intros [| k] Hlen; [lia|]. cbn [firstn depth]. rewrite Eo, Ec.
      destruct k as [| k]; [simpl; lia|].
      cbn [List.length] in Hlen. specialize (Hk (S k) ltac:(lia)). lia.
  - destruct (IH (i + 1) n j ltac:(lia) ltac:(lia) H Hj)
      as (w & tail & -> & -> & Hz & Hk & Hend).
    exists (c :: w), tail. rewrite Hcons. cbn [depth]. rewrite Eo, Ec.
    repeat split; [lia | lia | | now apply Hlast].
    intros [| k] Hlen; [lia|]. cbn [firstn depth]. rewrite Eo, Ec.
    destruct k as [| k]; [simpl; lia|].
    cbn [List.length] in Hlen. specialize (Hk (S k) ltac:(lia)). lia.
Qed.

Lemma scanBraces_missing rest :
  forall i n, 0 < n -> 0 <= i -> scanBraces rest i n = -1 ->
    forall k, (k <= List.length rest)%nat -> 0 < n + depth (firstn k rest).
Proof.
  induction rest as [| c rest IH]; intros i n Hn Hi H k Hk.
  - destruct k; simpl; lia.
  - cbn [scanBraces] in H.
    destruct k as [| k]; [simpl; lia|].
    cbn [firstn depth]. cbn [List.length] in Hk.
    pose proof (braces_differ c) as Hdiff.
    destruct (N.eqb c lbrace) eqn:Eo; destruct (N.eqb c rbrace) eqn:Ec;
      try discriminate Hdiff.
    + specialize (IH (i + 1) (n + 1) ltac:(lia) ltac:(lia) H k ltac:(lia)). lia.
    + destruct (Z.eqb_spec (n - 1) 0) as [En | En]; [lia|].
      specialize (IH (i + 1) (n - 1) ltac:(lia) ltac:(lia) H k ltac:(lia)). lia.
    + specialize (IH (i + 1) n ltac:(lia) ltac:(lia) H k ltac:(lia)). lia.
Qed.

Lemma jsonStart_found text :
  jsonStart text <> -1 ->
  exists pre rest, text = pre ++ lbrace :: rest /\ ~ In lbrace pre.
Proof.
  intros H. unfold jsonStart, indexOf in H.
  destruct (indexOfFrom_found lbrace text 0 _ ltac:(lia) eq_refl H)
    as (pre & rest & E & Hpre & _).
  now exists pre, rest.
Qed.

(** X1. Whatever the text, a candidate returned by the extractor is a
    piece of it that starts at its first opening brace, ends with a
    closing brace, has as many closing as opening braces, and in which
    the depth stays positive before the last unit: the extractor never
    returns an unbalanced or a shorter-than-balanced candidate. *)
Theorem candidate_is_balanced text candidate :
  extractJson text = Candidate candidate ->
  exists pre tail,
    text = pre ++ candidate ++ tail
    /\ ~ In lbrace pre
    /\ hd_error candidate = Some lbrace
    /\ hd_error (rev candidate) = Some rbrace
    /\ depth candidate = 0
    /\ (forall k, (0 < k < List.length candidate)%nat ->
          0 < depth (firstn k candidate)).
Proof.
  unfold extractJson.
  destruct (Z.eqb_spec (jsonStart text) (-1)) as [| Hstart]; [discriminate|].
  destruct (Z.eqb_spec (jsonEnd text) (-1)) as [| Hend]; [discriminate|].
  cbn [negb]. intros [= <-].
  destruct (jsonStart_found text Hstart) as (pre & rest & -> & Hpre).
  pose proof (jslength_nonneg pre) as Hlen.
  revert Hend. rewrite jsonStart_first, jsonEnd_first by assumption. intros Hend.
  destruct (scanBraces_found rest (JS.length pre + 1) 1 _ ltac:(lia) ltac:(lia)
              eq_refl Hend)
    as (w & tail & -> & Ej & Hz & Hk & Hlast).
  rewrite Ej.
  replace (JS.length pre + 1 + JS.length w - 1 + 1)
    with (JS.length pre + JS.length (lbrace :: w))
    by (unfold JS.length; cbn [List.length]; lia).
  change (pre ++ lbrace :: w ++ tail) with (pre ++ (lbrace :: w) ++ tail).
  rewrite substring_middle.
  exists pre, tail.
  split; [reflexivity|]. split; [assumption|]. split; [reflexivity|].
  split; [| split].
  - simpl. destruct (rev w); [discriminate | exact Hlast].
  - cbn [depth]. change (N.eqb lbrace lbrace) with true.
    change (N.eqb lbrace rbrace) with false. lia.
  - intros [| k] Hlenk; [lia|]. cbn [firstn depth].
    change (N.eqb lbrace lbrace) with true.
    change (N.eqb lbrace rbrace) with false.
    destruct k as [| k]; [simpl; lia|].
    cbn [List.length] in Hlenk. specialize (Hk (S k) ltac:(lia)). lia.
Qed.

(** X2. The two failures of the extractor are exact: there is no
    candidate if and only if the text holds no opening brace, and the
    object is incomplete if and only if the depth, counted from the first
    opening brace, stays positive to the end of the text. *)
Theorem extraction_failures_exact text :
  (extractJson text = NoCandidate <-> ~ In lbrace text)
  /\ (extractJson text = IncompleteObject <->
      exists pre rest,
        text = pre ++ lbrace :: rest /\ ~ In lbrace pre
        /\ forall k, (0 < k <= List.length (lbrace :: rest))%nat ->
             0 < depth (firstn k (lbrace :: rest))).
Proof.
  split; split.
  - intros H Hin. unfold extractJson in H.
    pose proof (indexOfFrom_present lbrace text 0 Hin ltac:(lia)) as Hne.
    fold (indexOf lbrace text) in Hne. fold (jsonStart text) in Hne.
    destruct (Z.eqb_spec (jsonStart text) (-1)); [contradiction|].
    cbn [negb] in H. destruct (negb (jsonEnd text =? -1)); discriminate.
  - intros H. unfold extractJson. now rewrite jsonStart_absent.
  - unfold extractJson.
    destruct (Z.eqb_spec (jsonStart text) (-1)) as [| Hstart]; [discriminate|].
    destruct (Z.eqb_spec (jsonEnd text) (-1)) as [Hend |]; [| discriminate].
    intros _.
    destruct (jsonStart_found text Hstart) as (pre & rest & -> & Hpre).
    pose proof (jslength_nonneg pre) as Hlen.
    rewrite jsonEnd_first in Hend by assumption.
    exists pre, rest. repeat split; [assumption|].
    intros [| k] Hk; [lia|]. cbn [firstn depth List.length] in *.
    change (N.eqb lbrace lbrace) with true.
    change (N.eqb lbrace rbrace) with false.
    pose proof (scanBraces_missing rest (JS.length pre + 1) 1 ltac:(lia) ltac:(lia)
                  Hend k ltac:(lia)).
    lia.
  - intros (pre & rest & -> & Hpre & Hk).
    apply extractJson_incomplete; [assumption|].
    intros k Hlen. specialize (Hk k Hlen). lia.
Qed.

End ExtractorConverse.

(* ================================================================== *)
(** ** The cascade as a whole *)
(* ================================================================== *)

Section Cascade.

Variable JSON_parse : jsstring -> completion JSON.

(** The two tables of the handler are read with the same key and agree:
    either both find their own entry, of the same name, or both find the
    same inherited member. *)
Lemma tables_agree req :
  (objectPrototype (budgetKey req) = None
   /\ exists mode,
        lookupMode req = Own mode
        /\ In mode [flowMode; moderateMode; intenseMode]
        /\ selectedModeOf req = Own (name mode))
  \/ (exists m,
        objectPrototype (budgetKey req) = Some m
        /\ lookupMode req = Inherited m
        /\ selectedModeOf req = Inherited m).
Proof.
  unfold lookupMode, selectedModeOf, getProperty.
  generalize (budgetKey req). intros key.
  cbn [modeDetails budgetToMode find fst].
  destruct (JS.eqb (lit "budget") key) eqn:E1.
  { apply jseqb_eq in E1. subst key. left. split; [reflexivity|].
    exists flowMode. split; [reflexivity | split; [simpl; auto | reflexivity]]. }
  destruct (JS.eqb (lit "moderate") key) eqn:E2.
  { apply jseqb_eq in E2. subst key. left. split; [reflexivity|].
    exists moderateMode. split; [reflexivity | split; [simpl; auto | reflexivity]]. }
  destruct (JS.eqb (lit "luxury") key) eqn:E3.
  { apply jseqb_eq in E3. subst key. left. split; [reflexivity|].
    exists intenseMode. split; [reflexivity | split; [simpl; auto | reflexivity]]. }
  destruct (objectPrototype key) as [m |] eqn:Ep.
  - right. exists m. auto.
  - left. split; [reflexivity|]. exists moderateMode.
    split; [reflexivity | split; [simpl; auto | reflexivity]].
Qed.

Lemma jsonStart_present text : In lbrace text <-> jsonStart text <> -1.
Proof.
  split.
  - intros H. apply indexOfFrom_present; [assumption | lia].
  - intros H. destruct (jsonStart_found text H) as (pre & rest & -> & _).
    apply in_or_app. right. now left.
Qed.

Lemma nonempty_length (text : jsstring) :
  (JS.length text >? 0) = true <-> text <> [].
Proof.
  unfold JS.length. destruct text as [| c text]; cbn [List.length].
  - split; [discriminate | congruence].
  - split; [discriminate | intros _; reflexivity].
Qed.

Lemma parseCandidate_parsed jsonStr pv :
  parseCandidate JSON_parse jsonStr = Normal pv -> exists v, pv = Parsed v.
Proof.
  unfold parseCandidate, parsedBy, tryCatch, bind.
  destruct (JSON_parse jsonStr) as [v | e].
  - intros [= <-]. now exists v.
  - destruct (search travelPlanRe jsonStr) as [m |]; [| discriminate].
    destruct (JSON_parse _) as [v | e']; [| discriminate].
    intros [= <-]. now exists v.
Qed.

(** Every way in which the cascade can end. *)
Lemma synthesize_cases req text :
  (exists v, In lbrace text /\ synthesize JSON_parse req text = Normal (Parsed v))
  \/ (exists mode e,
        In lbrace text /\ lookupMode req = Own mode
        /\ synthesize JSON_parse req text = Normal (Built (fallbackPlanData req mode text e)))
  \/ (exists mode,
        ~ In lbrace text /\ text <> [] /\ lookupMode req = Own mode
        /\ synthesize JSON_parse req text = Normal (Built (textPlanData req mode text)))
  \/ (exists mode,
        text = [] /\ lookupMode req = Own mode
        /\ synthesize JSON_parse req text = Normal (Built (emptyPlanData req mode)))
  \/ (exists m,
        lookupMode req = Inherited m
        /\ synthesize JSON_parse req text = Throw modeTypeError).
Proof.
  unfold synthesize, tryBody.
  destruct (Z.eqb_spec (jsonStart text) (-1)) as [Hs | Hs]; cbn [negb].
  - assert (Hno : ~ In lbrace text) by (rewrite jsonStart_present; lia).
    destruct (JS.length text >? 0) eqn:Hlen.
    + apply nonempty_length in Hlen.
      unfold planFromText, planFromRawResponse, fallbackPlan, withMode.
      destruct (lookupMode req) as [mode | m].
      * right. right. left. exists mode. auto.
      * right. right. right. right. exists m. auto.
    + assert (text = []).
      { destruct text; [reflexivity|]. unfold JS.length in Hlen. simpl in Hlen.
        discriminate. }
      subst text.
      unfold planFromNothing, planFromRawResponse, fallbackPlan, withMode.
      destruct (lookupMode req) as [mode | m].
      * right. right. right. left. exists mode. auto.
      * right. right. right. right. exists m. auto.
  - assert (Hin : In lbrace text) by (now apply jsonStart_present).
    assert (Hcatch : forall e,
               tryCatch (Throw e)
                 (fun parseError =>
                    built (planFromRawResponse req (selectedModeOf req) text parseError))
               = match lookupMode req with
                 | Own mode => Normal (Built (fallbackPlanData req mode text e))
                 | Inherited _ => Throw modeTypeError
                 end).
    { intros e. unfold planFromRawResponse, fallbackPlan, withMode. cbn [tryCatch].
      destruct (lookupMode req); reflexivity. }
    assert (Hend : forall e,
               (exists mode,
                   lookupMode req = Own mode
                   /\ tryCatch (Throw e)
                        (fun parseError =>
                           built (planFromRawResponse req (selectedModeOf req) text
                                    parseError))
                      = Normal (Built (fallbackPlanData req mode text e)))
               \/ (exists m,
                     lookupMode req = Inherited m
                     /\ tryCatch (Throw e)
                          (fun parseError =>
                             built (planFromRawResponse req (selectedModeOf req) text
                                      parseError))
                        = Throw modeTypeError)).
    { intros e. rewrite Hcatch. destruct (lookupMode req) as [mode | m]; eauto. }
    destruct (negb (jsonEnd text =? -1)).
    + destruct (parseCandidate JSON_parse _) as [pv | e] eqn:Ec.
      * destruct (parseCandidate_parsed _ _ Ec) as [v ->]. left. exists v. auto.
      * destruct (Hend e) as [(mode & Hm & ->) | (m & Hm & ->)].
        -- right. left. exists mode, e. auto.
        -- right. right. right. right. exists m. auto.
    + destruct (Hend incompleteJson) as [(mode & Hm & ->) | (m & Hm & ->)].
      * right. left. exists mode, incompleteJson. auto.
      * right. right. right. right. exists m. auto.
Qed.

(** X6. An answer that holds an opening brace anywhere is never handled
    as plain text: either an object parsed from it is returned, or the
    plan is the one of the outer [catch], flagged with
    [json_extraction_failed]. An answer without any opening brace never
    reaches the parser nor the outer [catch]: its plan carries the first
    shape of the debug record when it is not empty, the second when it
    is. This for every request whose budget names no inherited member. *)
Theorem tier_follows_brace req text :
  plainBudget req ->
  (In lbrace text ->
     (exists v, synthesize JSON_parse req text = Normal (Parsed v))
     \/ (exists pd err info,
           synthesize JSON_parse req text = Normal (Built pd)
           /\ debug_info pd = FallbackDebug (JS.length text) err info true true))
  /\ (~ In lbrace text -> text <> [] ->
        exists pd,
          synthesize JSON_parse req text = Normal (Built pd)
          /\ debug_info pd
             = TextDebug (JS.length text) (includes text (destination req))
                         (budget req))
  /\ (text = [] ->
        exists pd task_sent,
          synthesize JSON_parse req text = Normal (Built pd)
          /\ debug_info pd = EmptyDebug 0 task_sent (budget req)).
Proof.
  intros Hplain.
  assert (Hown : forall m, lookupMode req <> Inherited m).
  { intros m Hm. destruct (lookupMode_plain req Hplain) as [mode Hmode]. congruence. }
  destruct (synthesize_cases req text)
    as [(v & Hin & E) | [(mode & e & Hin & Hm & E) | [(mode & Hno & Hne & Hm & E)
       | [(mode & Hnil & Hm & E) | (m & Hm & _)]]]];
    [| | | | exfalso; now apply (Hown m)].
  - split; [intros _; left; now exists v|].
    split; [intros Hno; contradiction | intros ->; destruct Hin].
  - split; [intros _; right; do 3 eexists; split; [exact E | reflexivity]|].
    split; [intros Hno; contradiction | intros ->; destruct Hin].
  - split; [intros Hin; contradiction|].
    split; [intros _ _; eexists; split; [exact E | reflexivity] | intros ->; congruence].
  - subst text. split; [intros []|].
    split; [intros _ Hne; congruence|].
    intros _. do 2 eexists. split; [exact E | reflexivity].
Qed.

(** X7. Whenever the handler builds the plan itself from an answer that
    is not empty, nothing of the answer is lost: the whole text is the
    detailed plan of the only plan result and the [full_ai_response], and
    the debug record holds its length, for every request and every
    parser. *)
Theorem built_plan_keeps_answer req text pd :
  text <> [] ->
  synthesize JSON_parse req text = Normal (Built pd) ->
  full_ai_response pd = text
  /\ map detailed_plan (plans pd) = [text]
  /\ responseLength (debug_info pd) = JS.length text.
Proof.
  intros Hne H.
  destruct (synthesize_cases req text)
    as [(v & Hin & E) | [(mode & e & Hin & Hm & E) | [(mode & Hno & _ & Hm & E)
       | [(mode & Hnil & Hm & E) | (m & Hm & E)]]]];
    rewrite E in H; try discriminate H; try congruence.
  - injection H as <-. repeat split.
  - injection H as <-. repeat split.
Qed.

(** X8. The mode named in the task sent to the agent is the mode of the
    plan that the handler builds, whatever the budget: [selected_mode]
    and the mode name of the only plan result are the text that follows
    [Create a] at the head of the task. *)
Theorem built_plan_names_task_mode req text pd :
  synthesize JSON_parse req text = Normal (Built pd) ->
  selected_mode pd = propertyToString (selectedModeOf req)
  /\ map mode_name (plans pd) = [selected_mode pd]
  /\ exists rest, taskOf req = lit "Create a " ++ selected_mode pd ++ rest.
Proof.
  intros H.
  assert (Hname : forall mode,
             lookupMode req = Own mode ->
             propertyToString (selectedModeOf req) = name mode).
  { intros mode Hm.
    destruct (tables_agree req) as [(_ & mode' & Hm' & _ & Hs) | (m & _ & Hm' & _)];
      [| congruence].
    rewrite Hs. rewrite Hm in Hm'. now injection Hm' as <-. }
  assert (Htask : forall mode,
             lookupMode req = Own mode ->
             exists rest, taskOf req = lit "Create a " ++ name mode ++ rest).
  { intros mode Hm. unfold taskOf. rewrite (Hname mode Hm). eexists. reflexivity. }
  destruct (synthesize_cases req text)
    as [(v & Hin & E) | [(mode & e & Hin & Hm & E) | [(mode & Hno & _ & Hm & E)
       | [(mode & Hnil & Hm & E) | (m & Hm & E)]]]];
    rewrite E in H; try discriminate H;
    injection H as <-; cbn [selected_mode plans map planOf mode_name];
    (split; [now rewrite (Hname mode Hm) | split; [reflexivity | now apply Htask]]).
Qed.

(** X9. The only error that can leave the cascade is the [TypeError] of
    a budget that names a member of [Object.prototype]: a failure of
    [JSON.parse] or the incomplete-object error never reaches the caller.
    For such a budget the cascade ends with that error unless an object
    parsed from the answer is returned. *)
Theorem only_inherited_budget_fails req text :
  (forall e,
      synthesize JSON_parse req text = Throw e ->
      e = modeTypeError /\ exists m, objectPrototype (budgetKey req) = Some m)
  /\ (forall m,
        objectPrototype (budgetKey req) = Some m ->
        synthesize JSON_parse req text = Throw modeTypeError
        \/ exists v, synthesize JSON_parse req text = Normal (Parsed v)).
Proof.
  assert (Hinh : forall m, lookupMode req = Inherited m ->
                   objectPrototype (budgetKey req) = Some m).
  { intros m Hm.
    destruct (tables_agree req) as [(_ & mode & Hm' & _) | (m' & Hp & Hm' & _)];
      congruence. }
  assert (Hown : forall mode m, lookupMode req = Own mode ->
                   objectPrototype (budgetKey req) = Some m -> False).
  { intros mode m Hm Hp.
    destruct (tables_agree req) as [(Hnone & _) | (m' & _ & Hm' & _)]; congruence. }
  destruct (synthesize_cases req text)
    as [(v & Hin & E) | [(mode & e & Hin & Hm & E) | [(mode & Hno & _ & Hm & E)
       | [(mode & Hnil & Hm & E) | (m & Hm & E)]]]];
    rewrite E; split;
    try (intros e' He'; discriminate He');
    try (intros m' Hp; exfalso; now apply (Hown mode m' Hm Hp)).
  - intros m _. right. now exists v.
  - intros e' [= <-]. split; [reflexivity|]. exists m. now apply Hinh.
  - intros m' _. now left.
Qed.

(** X4. A recovered field can be the empty text, and it then stands in
    place of the value of the request: a label followed by a blank and a
    comma recovers the empty text, and on the answer [{destination ,] the
    plan of the outer [catch] records an empty destination and its
    description ends after the words [plan for], although the request
    names a destination. *)
Theorem recovered_may_be_empty :
  (forall label, recovered label (lit label ++ lit " ,") = Some [])
  /\ (forall req mode,
        lookupMode req = Own mode ->
        synthesize JSON_parse req (lit "{destination ,")
        = Normal (Built (fallbackPlanData req mode (lit "{destination ,")
                           incompleteJson))
        /\ extractedDestination
             (extractedInfoOf req (selectedModeOf req) (lit "{destination ,")) = []
        /\ map description
               (plans (fallbackPlanData req mode (lit "{destination ,") incompleteJson))
           = [lit "AI-generated " ++ toLowerCase (name mode) ++ lit " plan for "]).
Proof.
  split; [exact recovered_empty_after_label|].
  intros req mode Hm.
  assert (Hrec : recovered "destination" (lit "{destination ,") = Some [])
    by (vm_compute; reflexivity).
  assert (Hdest : extractedDestination
                    (extractedInfoOf req (selectedModeOf req) (lit "{destination ,"))
                  = []).
  { unfold extractedInfoOf. cbn [extractedDestination]. now rewrite Hrec. }
  split; [| split; [exact Hdest|]].
  - unfold synthesize.
    change (tryBody JSON_parse req (taskOf req) (lit "{destination ,"))
      with (@Throw PlanValue incompleteJson).
    cbn [tryCatch]. unfold planFromRawResponse, fallbackPlan, withMode, built.
    now rewrite Hm.
  - unfold fallbackPlanData. cbn [plans map planOf description].
    now rewrite Hdest, app_nil_r.
Qed.

End Cascade.

(* ================================================================== *)
(** ** Task and totals *)
(* ================================================================== *)

Section TaskAndTotals.

Lemma startsWith_app p rest : startsWith p (p ++ rest) = true.
Proof.
  induction p as [| c p IH]; simpl; [reflexivity|].
  now rewrite N.eqb_refl.
Qed.

Lemma includes_unfold s p :
  includes s p
  = startsWith p s || match s with [] => false | _ :: s' => includes s' p end.
Proof. destruct s; reflexivity. Qed.

Lemma includes_middle pre p post : includes (pre ++ p ++ post) p = true.
Proof.
  induction pre as [| c pre IH].
  - cbn [app]. now rewrite includes_unfold, startsWith_app.
  - cbn [app includes]. rewrite IH. apply orb_true_r.
Qed.

(** X10. Whatever the request, the task sent to the agent holds the
    destination, ends with the fixed directive, and is at least 200
    units long, so that the excerpt kept in the debug record of an empty
    answer is always exactly 203 units: the first 200 of the task and an
    ellipsis. *)
Theorem task_shape req :
  includes (taskOf req) (destination req) = true
  /\ (exists head, taskOf req = head ++ taskTail)
  /\ 200 <= JS.length (taskOf req)
  /\ substring (taskOf req) 0 200 = firstn 200 (taskOf req)
  /\ JS.length (substring (taskOf req) 0 200 ++ lit "...") = 203.
Proof.
  pose proof (taskOf_long req) as Hlong.
  split; [| split; [| split; [| split]]].
  - unfold taskOf.
    rewrite (app_assoc (lit "Create a ")), (app_assoc _ (lit " travel plan for ")).
    apply includes_middle.
  - apply taskOf_tail.
  - unfold JS.length. lia.
  - change 200 with (Z.of_nat 200). now apply substring_prefix.
  - change 200 with (Z.of_nat 200). rewrite substring_prefix by assumption.
    rewrite jslength_app. unfold JS.length.
    rewrite firstn_length_le by assumption. reflexivity.
Qed.

Lemma totalBudgetOf_numbers band low high duration :
  removeFirst 36%N band = digits low ++ lit "-" ++ digits high ->
  totalBudgetOf band duration = Tools.totalOf (Z.of_N low) (Z.of_N high) duration.
Proof.
  intros H. rewrite (totalBudgetOf_band band low high duration H). reflexivity.
Qed.

(** X11. For a budget of the enumeration and any duration, zero and
    negative ones included, the seven fields that the handler derives
    from its table and from the parsed daily band are those of the plan
    that the generator tool makes for the same tier from its own
    numbers: mode name, emoji, attractions, pace, daily budget, total
    budget and flexibility. *)
Theorem handler_plan_matches_tool_plan req mode description detailedPlan :
  budget req = Some (lit "budget") \/ budget req = Some (lit "moderate")
  \/ budget req = Some (lit "luxury") ->
  lookupMode req = Own mode ->
  exists toolPlan,
    In toolPlan (Tools.generatedPlans req)
    /\ budgetFields (planOf req mode description detailedPlan)
       = Tools.toolFields toolPlan.
Proof.
  intros Hb Hm.
  destruct (lookupMode_recognized req) as (Hflow & Hmoderate & Hintense).
  unfold Tools.generatedPlans.
  destruct Hb as [Hb | [Hb | Hb]].
  - destruct (Hflow Hb) as [Hm' Hflex]. rewrite Hm in Hm'. injection Hm' as ->.
    exists (Tools.generateFlowPlan req). split; [now left|].
    unfold budgetFields, planOf, Tools.toolFields, Tools.generateFlowPlan.
    cbn [mode_name mode_emoji daily_attractions plan_pace daily_budget total_budget
         flexibility Tools.tool_mode_name Tools.tool_mode_emoji
         Tools.tool_daily_attractions Tools.tool_pace Tools.tool_daily_budget
         Tools.tool_total_budget Tools.tool_flexibility].
    rewrite Hflex.
    now rewrite (totalBudgetOf_numbers (daily flowMode) 80 120 (duration req) eq_refl).
  - destruct (Hmoderate Hb) as [Hm' Hflex]. rewrite Hm in Hm'. injection Hm' as ->.
    exists (Tools.generateModeratePlan req). split; [right; now left|].
    unfold budgetFields, planOf, Tools.toolFields, Tools.generateModeratePlan.
    cbn [mode_name mode_emoji daily_attractions plan_pace daily_budget total_budget
         flexibility Tools.tool_mode_name Tools.tool_mode_emoji
         Tools.tool_daily_attractions Tools.tool_pace Tools.tool_daily_budget
         Tools.tool_total_budget Tools.tool_flexibility].
    rewrite Hflex.
    now rewrite (totalBudgetOf_numbers (daily moderateMode) 120 180 (duration req) eq_refl).
  - destruct (Hintense Hb) as [Hm' Hflex]. rewrite Hm in Hm'. injection Hm' as ->.
    exists (Tools.generateIntensePlan req). split; [right; right; now left|].
    unfold budgetFields, planOf, Tools.toolFields, Tools.generateIntensePlan.
    cbn [mode_name mode_emoji daily_attractions plan_pace daily_budget total_budget
         flexibility Tools.tool_mode_name Tools.tool_mode_emoji
         Tools.tool_daily_attractions Tools.tool_pace Tools.tool_daily_budget
         Tools.tool_total_budget Tools.tool_flexibility].
    rewrite Hflex.
    now rewrite (totalBudgetOf_numbers (daily intenseMode) 180 250 (duration req) eq_refl).
Qed.

End TaskAndTotals.

(* ================================================================== *)
(** ** Planning tools *)
(* ================================================================== *)

Section ToolFiles.

Import Tools.

Lemma sanitize_unit_safe c : fileSafe (if isAlnum c then c else 95%N).
Proof. unfold fileSafe. destruct (isAlnum c) eqn:E; auto. Qed.

Lemma sanitize_safe_units s : Forall fileSafe (sanitize s).
Proof.
  unfold sanitize. induction s as [| c s IH]; simpl; constructor;
    [apply sanitize_unit_safe | assumption].
Qed.

Lemma sanitize_app a b : sanitize (a ++ b) = sanitize a ++ sanitize b.
Proof. unfold sanitize. apply map_app. Qed.

(** X13. The replacement applied to a destination before it enters a file
    name keeps the length of the text, leaves only ASCII letters, digits
    and underscores, changes nothing in a text made of letters and digits,
    and changes nothing when applied twice. It is not one-to-one: a blank
    and an underscore at the same place give the same result. *)
Theorem sanitize_properties :
  (forall s, List.length (sanitize s) = List.length s)
  /\ (forall s, Forall fileSafe (sanitize s))
  /\ (forall s, Forall (fun c => isAlnum c = true) s -> sanitize s = s)
  /\ (forall s, sanitize (sanitize s) = sanitize s)
  /\ (forall a b, sanitize (a ++ lit " " ++ b) = sanitize (a ++ lit "_" ++ b)).
Proof.
  split; [| split; [| split; [| split]]].
  - intros s. unfold sanitize. apply length_map.
  - apply sanitize_safe_units.
  - intros s Hs. unfold sanitize. induction Hs as [| c s Hc Hs IH]; simpl;
      [reflexivity|]. rewrite Hc. now f_equal.
  - intros s. unfold sanitize. rewrite map_map. apply map_ext. intros c.
    destruct (isAlnum c) eqn:E; [now rewrite E | reflexivity].
  - intros a b. now rewrite !sanitize_app.
Qed.

Lemma fileSafe_no_slash s : Forall fileSafe s -> ~ In 47%N s.
Proof.
  intros Hs Hin. rewrite Forall_forall in Hs.
  destruct (Hs _ Hin) as [H | H]; discriminate H.
Qed.

Lemma digits_no_slash n : ~ In 47%N (digits n).
Proof. apply decimal_not_in; auto with decimal. Qed.

Lemma dropZeros_incl s c : In c (dropZeros s) -> In c s.
Proof.
  induction s as [| x s IH]; cbn [dropZeros]; [easy|].
  destruct (x =? 48)%N; [intros H; right; now apply IH | easy].
Qed.

Lemma exponential_no_slash ds : ~ In 47%N ds -> ~ In 47%N (exponential ds).
Proof.
  intros Hds. unfold exponential. cbv zeta.
  destruct (_ <=? 21)%nat; [assumption|].
  match goal with
  | |- ~ In _ match ?sig with _ => _ end =>
      assert (Hsig : ~ In 47%N sig)
        by (intros Hin; apply Hds, in_rev, dropZeros_incl, in_rev; exact Hin);
      destruct sig as [| d [| d' more]]
  end; [assumption | |].
  - intros [H | H]; [apply Hsig; now left|].
    apply in_app_or in H as [H | H]; [revert H; absent_from_literal|].
    now apply digits_no_slash in H.
  - intros [H | H]; [apply Hsig; now left|].
    apply in_app_or in H as [H | H]; [revert H; absent_from_literal|].
    apply in_app_or in H as [H | H]; [apply Hsig; now right|].
    apply in_app_or in H as [H | H]; [revert H; absent_from_literal|].
    now apply digits_no_slash in H.
Qed.

Lemma doubleToString_no_slash d : ~ In 47%N (doubleToString d).
Proof.
  unfold doubleToString. destruct (d <=? 2 ^ 53); [apply digits_no_slash|].
  destruct (isInfinite d); [absent_from_literal|].
  apply exponential_no_slash, digits_no_slash.
Qed.

Lemma numberToString_no_slash z : ~ In 47%N (numberToString (Int z)).
Proof.
  unfold numberToString. destruct (toDouble z <? 0).
  - intros [H | H]; [discriminate H | now apply doubleToString_no_slash in H].
  - apply doubleToString_no_slash.
Qed.

(** X14. Whatever the destination, and whatever the time for the plans
    file, the file names built by the tools are the plans directory, one
    slash, and a name without any slash: no destination can make the
    file land outside that directory. Two destinations that differ by a
    blank against an underscore share one research file. *)
Theorem tool_files_stay_in_directory :
  (forall destination,
      exists fileName,
        researchFilename destination = PLANS_DIR ++ lit "/" ++ fileName
        /\ ~ In 47%N fileName)
  /\ (forall destination now,
        exists fileName,
          plansFilename destination now = PLANS_DIR ++ lit "/" ++ fileName
          /\ ~ In 47%N fileName)
  /\ (forall a b,
        researchFilename (a ++ lit " " ++ b) = researchFilename (a ++ lit "_" ++ b)).
Proof.
  split; [| split].
  - intros destination. eexists. split; [reflexivity|].
    intros Hin. apply in_app_or in Hin as [Hin | Hin].
    + now apply (fileSafe_no_slash _ (sanitize_safe_units destination)).
    + revert Hin. absent_from_literal.
  - intros destination now. eexists. split; [reflexivity|].
    intros Hin. apply in_app_or in Hin as [Hin | Hin];
      [now apply (fileSafe_no_slash _ (sanitize_safe_units destination))|].
    apply in_app_or in Hin as [Hin | Hin]; [revert Hin; absent_from_literal|].
    apply in_app_or in Hin as [Hin | Hin];
      [now apply (numberToString_no_slash now) | revert Hin; absent_from_literal].
  - intros a b. unfold researchFilename. now rewrite !sanitize_app.
Qed.

End ToolFiles.

Section ToolData.

Import Tools.

Variable roundTimes : Z -> tenths -> Z.
Variable lower : jsstring -> jsstring.

Lemma generateAttractions_filter destination interests budget :
  generateAttractions roundTimes lower destination interests budget
  = match interests with
    | [] => baseAttractions roundTimes destination budget
    | _ :: _ =>
        filter (ofInterest lower interests)
               (baseAttractions roundTimes destination budget)
    end.
Proof.
  unfold generateAttractions. destruct interests as [| i interests]; [reflexivity|].
  cbn [List.length]. rewrite Nat2Z.inj_succ.
  destruct (Z.gtb_spec (Z.succ (Z.of_nat (List.length interests))) 0) as [_ | H];
    [| lia].
  apply firstn_all2.
  pose proof (List.filter_length_le (ofInterest lower (i :: interests))
                (baseAttractions roundTimes destination budget)) as Hle.
  cbn [baseAttractions List.length] in Hle. lia.
Qed.

Lemma ofInterest_empty interests attraction :
  lower [] = [] -> In [] interests -> ofInterest lower interests attraction = true.
Proof.
  intros Hlow Hin. unfold ofInterest. apply existsb_exists.
  exists []. split; [assumption|]. rewrite Hlow.
  rewrite includes_unfold. reflexivity.
Qed.

(** X15. The attractions returned for a destination are the five base
    attractions when no interest is given, and otherwise those of the
    five that match an interest, in the same order: the cut at eight
    never removes any. There are at most five, each named after the
    destination, so the first five names list them all. An interest that
    is the empty text matches every attraction. *)
Theorem attractions_are_filtered_base destination interests budget :
  let found := generateAttractions roundTimes lower destination interests budget in
  let base := baseAttractions roundTimes destination budget in
  (interests = [] -> found = base)
  /\ (interests <> [] -> found = filter (ofInterest lower interests) base)
  /\ List.length base = 5%nat
  /\ (List.length found <= 5)%nat
  /\ firstn 5 (map attractionName found) = map attractionName found
  /\ Forall (fun a => In a base
                      /\ exists suffix, attractionName a = destination ++ suffix)
            found
  /\ (lower [] = [] -> In [] interests -> found = base).
Proof.
  intros found base. subst found base.
  rewrite generateAttractions_filter.
  assert (Hbase : Forall (fun a => exists suffix, attractionName a = destination ++ suffix)
                    (baseAttractions roundTimes destination budget)).
  { unfold baseAttractions. repeat constructor; eexists; reflexivity. }
  assert (Hlen : forall f,
             (List.length (filter f (baseAttractions roundTimes destination budget))
              <= 5)%nat).
  { intros f. pose proof (List.filter_length_le f
                            (baseAttractions roundTimes destination budget)) as H.
    cbn [baseAttractions List.length] in H. exact H. }
  assert (Hin : forall f,
             Forall (fun a => In a (baseAttractions roundTimes destination budget)
                              /\ exists suffix, attractionName a = destination ++ suffix)
                    (filter f (baseAttractions roundTimes destination budget))).
  { intros f. apply Forall_forall. intros a Ha. apply filter_In in Ha as [Ha _].
    split; [assumption|]. rewrite Forall_forall in Hbase. now apply Hbase. }
  destruct interests as [| i interests].
  - split; [reflexivity|]. split; [congruence|]. split; [reflexivity|].
    split; [cbn [baseAttractions List.length]; lia|].
    split; [reflexivity|]. split; [| intros _ []].
    apply Forall_forall. intros a Ha. split; [assumption|].
    rewrite Forall_forall in Hbase. now apply Hbase.
  - split; [discriminate|]. split; [reflexivity|]. split; [reflexivity|].
    split; [apply Hlen|].
    split; [apply firstn_all2; rewrite length_map; apply Hlen|].
    split; [apply Hin|].
    intros Hlow Hempty.
    apply forallb_filter_id. apply forallb_forall. intros a _.
    now apply ofInterest_empty.
Qed.

End ToolData.

Section ToolRestaurants.

Import Tools.

(** X16. For every destination and every budget text, recognized or not,
    there are three restaurants of three different cuisines, so that the
    set of cuisines of the research summary has three members; the street
    food corner is never dearer than the bistro, and the bistro never
    dearer than the fine dining, counting the dollar signs of their price
    ranges. *)
Theorem restaurants_are_ordered destination budget :
  map cuisine (generateRestaurants destination budget)
  = [lit "Local"; lit "Various"; lit "International"]
  /\ NoDup (map cuisine (generateRestaurants destination budget))
  /\ exists street bistro fine,
       map price_range (generateRestaurants destination budget)
       = [bistro; street; fine]
       /\ Forall (fun p => Forall (fun c => c = 36%N) p) [street; bistro; fine]
       /\ List.length street = 1%nat
       /\ (List.length street <= List.length bistro)%nat
       /\ (List.length bistro <= List.length fine)%nat
       /\ (List.length fine <= 3)%nat.
Proof.
  split; [reflexivity|]. split.
  - cbn [generateRestaurants map cuisine].
    repeat constructor; simpl; intuition discriminate.
  - unfold generateRestaurants. cbn [map price_range].
    destruct (JS.eqb budget (lit "budget")); [| destruct (JS.eqb budget (lit "luxury"))];
      do 3 eexists; (split; [reflexivity|]);
      (split; [repeat constructor | simpl; repeat split; lia]).
Qed.

End ToolRestaurants.

(* ================================================================== *)
(** ** The further properties on concrete inputs *)
(* ================================================================== *)

Section FurtherInstances.

Lemma candidate_is_balanced_witness :
  extractJson (litq "noise{`a`:{`b`:1}}tail") = Candidate (litq "{`a`:{`b`:1}}")
  /\ exists pre tail,
       litq "noise{`a`:{`b`:1}}tail" = pre ++ litq "{`a`:{`b`:1}}" ++ tail
       /\ ~ In lbrace pre
       /\ hd_error (litq "{`a`:{`b`:1}}") = Some lbrace
       /\ hd_error (rev (litq "{`a`:{`b`:1}}")) = Some rbrace
       /\ depth (litq "{`a`:{`b`:1}}") = 0
       /\ (forall k, (0 < k < List.length (litq "{`a`:{`b`:1}}"))%nat ->
             0 < depth (firstn k (litq "{`a`:{`b`:1}}"))).
Proof.
  assert (H : extractJson (litq "noise{`a`:{`b`:1}}tail")
              = Candidate (litq "{`a`:{`b`:1}}")) by (vm_compute; reflexivity).
  exact (conj H (candidate_is_balanced _ _ H)).
Defined.

Lemma extraction_failures_exact_witness :
  (~ In lbrace (lit "no object here")
   /\ extractJson (lit "no object here") = NoCandidate)
  /\ (extractJson (lit "so: {{}x") = IncompleteObject
      /\ exists pre rest,
           lit "so: {{}x" = pre ++ lbrace :: rest /\ ~ In lbrace pre
           /\ forall k, (0 < k <= List.length (lbrace :: rest))%nat ->
                0 < depth (firstn k (lbrace :: rest))).
Proof.
  assert (Hnone : ~ In lbrace (lit "no object here")) by absent_from_literal.
  assert (Hinc : extractJson (lit "so: {{}x") = IncompleteObject)
    by (vm_compute; reflexivity).
  split.
  - exact (conj Hnone
             (proj2 (proj1 (extraction_failures_exact (lit "no object here"))) Hnone)).
  - exact (conj Hinc
             (proj1 (proj2 (extraction_failures_exact (lit "so: {{}x"))) Hinc)).
Defined.

Lemma recovered_field_shape_witness :
  recovered "mode" (litq "Here is the plan: {`mode`: `Flow`, oops}")
  = Some (lit "Flow")
  /\ (exists pre l glue g post,
        litq "Here is the plan: {`mode`: `Flow`, oops}"
        = pre ++ l ++ glue ++ g ++ post
        /\ Forall2 sameLetter l (lit "mode")
        /\ Forall (fun c => labelGlue c = true) glue
        /\ g <> [] /\ Forall (fun c => fieldUnit c = true) g
        /\ lit "Flow" = trim g)
  /\ Forall (fun c => fieldUnit c = true) (lit "Flow")
  /\ (forall c, hd_error (lit "Flow") = Some c -> isWhiteSpace c = false)
  /\ (forall c, hd_error (rev (lit "Flow")) = Some c -> isWhiteSpace c = false).
Proof.
  assert (H : recovered "mode" (litq "Here is the plan: {`mode`: `Flow`, oops}")
              = Some (lit "Flow")) by (vm_compute; reflexivity).
  exact (conj H (recovered_field_shape _ _ _ H)).
Defined.

Lemma relaxed_match_shape_witness :
  search travelPlanRe (litq "{x `travel_plan`: {`days`: {`n`: 1}}}")
  = Some (mkMatch (litq "`travel_plan`: {`days`: {`n`: 1}") None)
  /\ exists pre post ws1 ws2 body,
       litq "{x `travel_plan`: {`days`: {`n`: 1}}}"
       = pre ++ litq "`travel_plan`: {`days`: {`n`: 1}" ++ post
       /\ litq "`travel_plan`: {`days`: {`n`: 1}"
          = litq "`travel_plan`" ++ ws1 ++ [58%N] ++ ws2
              ++ [lbrace] ++ body ++ [rbrace]
       /\ Forall (fun c => isWhiteSpace c = true) ws1
       /\ Forall (fun c => isWhiteSpace c = true) ws2
       /\ ~ In rbrace body
       /\ 0 <= depth (lit "{" ++ litq "`travel_plan`: {`days`: {`n`: 1}" ++ lit "}")
       /\ (depth (lit "{" ++ litq "`travel_plan`: {`days`: {`n`: 1}" ++ lit "}") = 0
           <-> ~ In lbrace body).
Proof.
  assert (H : search travelPlanRe (litq "{x `travel_plan`: {`days`: {`n`: 1}}}")
              = Some (mkMatch (litq "`travel_plan`: {`days`: {`n`: 1}") None))
    by (vm_compute; reflexivity).
  exact (conj H (relaxed_match_shape _ _ H)).
Defined.

Lemma tier_follows_brace_witness :
  plainBudget tokyoRequest
  /\ (In lbrace (lit "{oops}")
      /\ ((exists v, synthesize Json.parse tokyoRequest (lit "{oops}") = Normal (Parsed v))
          \/ (exists pd err info,
                synthesize Json.parse tokyoRequest (lit "{oops}") = Normal (Built pd)
                /\ debug_info pd
                   = FallbackDebug (JS.length (lit "{oops}")) err info true true)))
  /\ (~ In lbrace (lit "A plan.") /\ lit "A plan." <> []
      /\ exists pd,
           synthesize Json.parse tokyoRequest (lit "A plan.") = Normal (Built pd)
           /\ debug_info pd
              = TextDebug (JS.length (lit "A plan."))
                          (includes (lit "A plan.") (destination tokyoRequest))
                          (budget tokyoRequest))
  /\ ((@nil codeunit) = []
      /\ exists pd task_sent,
           synthesize Json.parse tokyoRequest [] = Normal (Built pd)
           /\ debug_info pd = EmptyDebug 0 task_sent (budget tokyoRequest)).
Proof.
  assert (Hplain : plainBudget tokyoRequest) by reflexivity.
  assert (Hin : In lbrace (lit "{oops}")) by (left; reflexivity).
  assert (Hno : ~ In lbrace (lit "A plan.")) by absent_from_literal.
  assert (Hne : lit "A plan." <> []) by discriminate.
  split; [exact Hplain|]. split; [| split].
  - exact (conj Hin
             (proj1 (tier_follows_brace Json.parse tokyoRequest (lit "{oops}") Hplain)
                    Hin)).
  - exact (conj Hno
             (conj Hne
                (proj1 (proj2 (tier_follows_brace Json.parse tokyoRequest
                                 (lit "A plan.") Hplain))
                       Hno Hne))).
  - exact (conj eq_refl
             (proj2 (proj2 (tier_follows_brace Json.parse tokyoRequest [] Hplain))
                    eq_refl)).
Defined.

Lemma recovered_may_be_empty_witness :
  lookupMode tokyoRequest = Own intenseMode
  /\ synthesize Json.parse tokyoRequest (lit "{destination ,")
     = Normal (Built (fallbackPlanData tokyoRequest intenseMode (lit "{destination ,")
                        incompleteJson))
  /\ extractedDestination
       (extractedInfoOf tokyoRequest (selectedModeOf tokyoRequest)
          (lit "{destination ,")) = []
  /\ map description
         (plans (fallbackPlanData tokyoRequest intenseMode (lit "{destination ,")
                   incompleteJson))
     = [lit "AI-generated " ++ toLowerCase (name intenseMode) ++ lit " plan for "].
Proof.
  assert (Hm : lookupMode tokyoRequest = Own intenseMode) by reflexivity.
  exact (conj Hm (proj2 (recovered_may_be_empty Json.parse) tokyoRequest intenseMode Hm)).
Defined.

Lemma built_plan_keeps_answer_witness :
  lit "A plan." <> []
  /\ synthesize Json.parse tokyoRequest (lit "A plan.")
     = Normal (Built (textPlanData tokyoRequest intenseMode (lit "A plan.")))
  /\ full_ai_response (textPlanData tokyoRequest intenseMode (lit "A plan."))
     = lit "A plan."
  /\ map detailed_plan (plans (textPlanData tokyoRequest intenseMode (lit "A plan.")))
     = [lit "A plan."]
  /\ responseLength (debug_info (textPlanData tokyoRequest intenseMode (lit "A plan.")))
     = JS.length (lit "A plan.").
Proof.
  assert (Hne : lit "A plan." <> []) by discriminate.
  assert (H : synthesize Json.parse tokyoRequest (lit "A plan.")
              = Normal (Built (textPlanData tokyoRequest intenseMode (lit "A plan."))))
    by (vm_compute; reflexivity).
  exact (conj Hne (conj H (built_plan_keeps_answer Json.parse _ _ _ Hne H))).
Defined.

Lemma built_plan_names_task_mode_witness :
  synthesize Json.parse premiumRequest (lit "{oops}")
  = Normal (Built (fallbackPlanData premiumRequest moderateMode (lit "{oops}")
                     (mkError SyntaxError
                        (lit "Unexpected token o in JSON at position 1"))))
  /\ selected_mode (fallbackPlanData premiumRequest moderateMode (lit "{oops}")
                      (mkError SyntaxError
                         (lit "Unexpected token o in JSON at position 1")))
     = propertyToString (selectedModeOf premiumRequest)
  /\ map mode_name
         (plans (fallbackPlanData premiumRequest moderateMode (lit "{oops}")
                   (mkError SyntaxError
                      (lit "Unexpected token o in JSON at position 1"))))
     = [selected_mode
          (fallbackPlanData premiumRequest moderateMode (lit "{oops}")
             (mkError SyntaxError (lit "Unexpected token o in JSON at position 1")))]
  /\ exists rest,
       taskOf premiumRequest
       = lit "Create a "
           ++ selected_mode
                (fallbackPlanData premiumRequest moderateMode (lit "{oops}")
                   (mkError SyntaxError
                      (lit "Unexpected token o in JSON at position 1")))
           ++ rest.
Proof.
  assert (H : synthesize Json.parse premiumRequest (lit "{oops}")
              = Normal (Built (fallbackPlanData premiumRequest moderateMode
                                 (lit "{oops}")
                                 (mkError SyntaxError
                                    (lit "Unexpected token o in JSON at position 1")))))
    by (vm_compute; reflexivity).
  exact (conj H (built_plan_names_task_mode Json.parse _ _ _ H)).
Defined.

Lemma only_inherited_budget_fails_witness :
  (synthesize Json.parse constructorRequest (lit "A plan.") = Throw modeTypeError
   /\ modeTypeError = modeTypeError
   /\ exists m, objectPrototype (budgetKey constructorRequest) = Some m)
  /\ (objectPrototype (budgetKey constructorRequest)
      = Some (BuiltinFunction (lit "Object"))
      /\ (synthesize Json.parse constructorRequest (lit "{}") = Throw modeTypeError
          \/ exists v,
               synthesize Json.parse constructorRequest (lit "{}") = Normal (Parsed v))).
Proof.
  assert (H : synthesize Json.parse constructorRequest (lit "A plan.")
              = Throw modeTypeError) by (vm_compute; reflexivity).
  assert (Hp : objectPrototype (budgetKey constructorRequest)
               = Some (BuiltinFunction (lit "Object"))) by reflexivity.
  split.
  - exact (conj H
             (proj1 (only_inherited_budget_fails Json.parse constructorRequest
                       (lit "A plan."))
                    _ H)).
  - exact (conj Hp
             (proj2 (only_inherited_budget_fails Json.parse constructorRequest
                       (lit "{}"))
                    _ Hp)).
Defined.

Lemma handler_plan_matches_tool_plan_witness :
  (budget tokyoRequest = Some (lit "budget")
   \/ budget tokyoRequest = Some (lit "moderate")
   \/ budget tokyoRequest = Some (lit "luxury"))
  /\ lookupMode tokyoRequest = Own intenseMode
  /\ exists toolPlan,
       In toolPlan (Tools.generatedPlans tokyoRequest)
       /\ budgetFields (planOf tokyoRequest intenseMode (lit "A plan for Tokyo")
                          (lit "Day 1"))
          = Tools.toolFields toolPlan.
Proof.
  assert (Hb : budget tokyoRequest = Some (lit "budget")
               \/ budget tokyoRequest = Some (lit "moderate")
               \/ budget tokyoRequest = Some (lit "luxury"))
    by (right; right; reflexivity).
  assert (Hm : lookupMode tokyoRequest = Own intenseMode) by reflexivity.
  exact (conj Hb
           (conj Hm
              (handler_plan_matches_tool_plan tokyoRequest intenseMode
                 (lit "A plan for Tokyo") (lit "Day 1") Hb Hm))).
Defined.

Lemma sanitize_properties_witness :
  Forall (fun c => Tools.isAlnum c = true) (lit "Tokyo2026")
  /\ Tools.sanitize (lit "Tokyo2026") = lit "Tokyo2026".
Proof.
  assert (H : Forall (fun c => Tools.isAlnum c = true) (lit "Tokyo2026"))
    by (repeat constructor).
  exact (conj H (proj1 (proj2 (proj2 sanitize_properties)) _ H)).
Defined.

Lemma attractions_are_filtered_base_witness :
  ((@nil jsstring) = []
   /\ Tools.generateAttractions Tools.roundHalfUp toLowerCase (lit "Tokyo") []
        (lit "luxury")
      = Tools.baseAttractions Tools.roundHalfUp (lit "Tokyo") (lit "luxury"))
  /\ ([lit "Art"; lit "views"] <> []
      /\ Tools.generateAttractions Tools.roundHalfUp toLowerCase (lit "Tokyo")
           [lit "Art"; lit "views"] (lit "luxury")
         = filter (Tools.ofInterest toLowerCase [lit "Art"; lit "views"])
                  (Tools.baseAttractions Tools.roundHalfUp (lit "Tokyo") (lit "luxury")))
  /\ (toLowerCase [] = [] /\ In [] [lit "opera"; []]
      /\ Tools.generateAttractions Tools.roundHalfUp toLowerCase (lit "Tokyo")
           [lit "opera"; []] (lit "budget")
         = Tools.baseAttractions Tools.roundHalfUp (lit "Tokyo") (lit "budget")).
Proof.
  assert (Hne : [lit "Art"; lit "views"] <> []) by discriminate.
  assert (Hin : In [] [lit "opera"; []]) by (right; left; reflexivity).
  split; [| split].
  - exact (conj eq_refl
             (proj1 (attractions_are_filtered_base Tools.roundHalfUp toLowerCase
                       (lit "Tokyo") [] (lit "luxury"))
                    eq_refl)).
  - exact (conj Hne
             (proj1 (proj2 (attractions_are_filtered_base Tools.roundHalfUp toLowerCase
                              (lit "Tokyo") [lit "Art"; lit "views"] (lit "luxury")))
                    Hne)).
  - exact (conj eq_refl
             (conj Hin
                (proj2 (proj2 (proj2 (proj2 (proj2 (proj2
                   (attractions_are_filtered_base Tools.roundHalfUp toLowerCase
                      (lit "Tokyo") [lit "opera"; []] (lit "budget")))))))
                   eq_refl Hin))).
Defined.

(** What the filter keeps for the interests [Art] and [views], on the
    luxury budget. *)
Example attractions_for_art_and_views :
  map (fun a => (Tools.attractionName a, Tools.estimated_cost a))
      (Tools.generateAttractions Tools.roundHalfUp toLowerCase (lit "Tokyo")
         [lit "Art"; lit "views"] (lit "luxury"))
  = [ (lit "Tokyo Historic Center", lit "$23");
      (lit "Tokyo Art Museum", lit "$30");
      (lit "Tokyo Observation Deck", lit "$45") ].
Proof. vm_compute. reflexivity. Qed.

(** A closing brace inside a string stops the scan: the answer below is
    valid JSON, yet the candidate is cut inside the string and the plan
    is the one of the outer [catch]. *)
Example brace_inside_string_ends_candidate :
  (exists v, Json.parse (litq "{`note`:`}`}") = Normal v)
  /\ extractJson (litq "{`note`:`}`}") = Candidate (litq "{`note`:`}")
  /\ fmap (fun pv => match pv with
                     | Built pd => Some (debug_info pd)
                     | Parsed _ => None
                     end)
          (synthesize Json.parse tokyoRequest (litq "{`note`:`}`}"))
     = Normal (Some (FallbackDebug 12 (lit "Unexpected end of JSON input")
                       (mkExtracted (lit "Tokyo") (inr 3)
                                    (Own (lit "Intense Adventure")))
                       true true)).
Proof.
  split; [eexists; vm_compute; reflexivity|].
  split; vm_compute; reflexivity.
Qed.

End FurtherInstances.
